(** * IENA multicast sender / receiver: codec, discovery and receiver buffer

    A shallow embedding of [iena_multicast_sender.py] and
    [iena_multicast_receiver.py].  Python integers are [Z], byte strings are
    lists of [byte], dictionaries are [gmap]s, and a Python call that can
    raise is a computation in the [outcome] monad below. *)

From Stdlib Require Import ZArith Lia.
From Stdlib Require Import Strings.Byte.
From Stdlib Require Import Sorting.Sorted.
From stdpp Require Import base list gmap strings.

Local Open Scope Z_scope.

(** ** Exceptions *)

Inductive exn : Type :=
| StructError     (* struct.error *)
| ValueError      (* unpacking a tuple of the wrong arity *)
| KeyError        (* dict[name] on a missing name *)
| IndexError.     (* list[i] out of range, boolean mask of the wrong length *)

Inductive outcome (A : Type) : Type :=
| Raised (e : exn)
| Returned (a : A).
Arguments Raised {A} e.
Arguments Returned {A} a.

Definition obind {A B} (m : outcome A) (k : A -> outcome B) : outcome B :=
  match m with
  | Raised e => Raised e
  | Returned a => k a
  end.

Notation "'let!' x ':=' m 'in' k" := (obind m (fun x => k))
  (at level 10, x pattern, m at level 100, k at level 200).

Definition returns {A} (m : outcome A) : Prop := exists a, m = Returned a.

(** ** Bytes and big-endian integers *)

Definition bytes := list byte.

Definition Z_of_byte (b : byte) : Z := Z.of_N (Byte.to_N b).

Definition byte_of_Z (z : Z) : byte :=
  match Byte.of_N (Z.to_N (z mod 256)) with
  | Some b => b
  | None => x00
  end.

(** [be_bytes n v]: the [n] low-order bytes of [v], most significant first. *)
Fixpoint be_bytes (n : nat) (v : Z) : bytes :=
  match n with
  | O => []
  | S k => byte_of_Z (v / 256 ^ Z.of_nat k) :: be_bytes k v
  end.

(** [be_value bs]: the unsigned big-endian value of [bs]. *)
Definition be_value (bs : bytes) : Z :=
  fold_left (fun acc b => acc * 256 + Z_of_byte b) bs 0.

(** ** Binary32 values as bit patterns

    A value of a packet is a Python float.  The development covers the
    floats that hold a binary32 value, and carries each as the binary32 bit
    pattern of that value, an integer below [2^32].  The other floats are
    outside it: [struct.pack] rounds a float that holds no binary32 value to
    the nearest one, and raises [OverflowError] on a finite float beyond the
    binary32 range. *)

Definition is_f32 (b : Z) : Prop := 0 <= b < 2 ^ 32.

Definition f32_exponent (b : Z) : Z := Z.land (Z.shiftr b 23) 255.
Definition f32_mantissa (b : Z) : Z := Z.land b 8388607.

Definition f32_is_nan (b : Z) : bool :=
  (f32_exponent b =? 255) && negb (f32_mantissa b =? 0).

Definition f32_is_zero (b : Z) : bool := Z.land b 2147483647 =? 0.

(** IEEE-754 equality ([==] on floats): a NaN equals nothing, the two zeros
    are equal, every other value equals only itself. *)
Definition f32_eqb (a b : Z) : bool :=
  if f32_is_nan a || f32_is_nan b then false
  else (a =? b) || (f32_is_zero a && f32_is_zero b).

(** The conversion between binary64 and binary32 that [struct.pack] and
    [struct.unpack] go through turns a signalling NaN into the quiet NaN of
    the same payload (bit 22 of the pattern is set) and keeps every other
    pattern. *)
Definition f32_quiet (b : Z) : Z :=
  if f32_is_nan b then Z.lor b 4194304 else b.

(** ** The fragment of Python's [struct] module that the programs use

    Only the big-endian formats ['>H'], ['>I'] and ['>f'] occur. *)

Inductive fmt : Type := fmt_H | fmt_I | fmt_f.

Definition fmt_width (c : fmt) : nat :=
  match c with
  | fmt_H => 2
  | fmt_I => 4
  | fmt_f => 4
  end%nat.

Definition calcsize (fs : list fmt) : nat :=
  foldr (fun c acc => (fmt_width c + acc)%nat) 0%nat fs.

Definition pack_field (c : fmt) (v : Z) : outcome bytes :=
  match c with
  | fmt_H => if (0 <=? v) && (v <=? 65535) then Returned (be_bytes 2 v)
             else Raised StructError
  | fmt_I => if (0 <=? v) && (v <=? 4294967295) then Returned (be_bytes 4 v)
             else Raised StructError
  | fmt_f => Returned (be_bytes 4 (f32_quiet v))
  end.

(** [struct.pack(fmt, *vals)]: one argument per field, else [struct.error]. *)
Fixpoint struct_pack (fs : list fmt) (vals : list Z) : outcome bytes :=
  match fs, vals with
  | [], [] => Returned []
  | c :: fs', v :: vals' =>
      let! b := pack_field c v in
      let! rest := struct_pack fs' vals' in
      Returned (b ++ rest)
  | _, _ => Raised StructError
  end.

(** The value of one field read from its bytes. *)
Definition unpack_field (c : fmt) (bs : bytes) : Z :=
  match c with
  | fmt_f => f32_quiet (be_value bs)
  | _ => be_value bs
  end.

Fixpoint decode_fields (fs : list fmt) (bs : bytes) : list Z :=
  match fs with
  | [] => []
  | c :: fs' =>
      unpack_field c (take (fmt_width c) bs) :: decode_fields fs' (drop (fmt_width c) bs)
  end.

(** [struct.unpack_from(fmt, data, offset)]: a negative offset counts from
    the end; the buffer must hold [calcsize fmt] bytes from the offset. *)
Definition struct_unpack_from (fs : list fmt) (data : bytes) (offset : Z)
  : outcome (list Z) :=
  let len := Z.of_nat (length data) in
  let! off :=
    (if offset <? 0
     then (if offset + len <? 0 then Raised StructError else Returned (offset + len))
     else Returned offset) in
  if len - off <? Z.of_nat (calcsize fs) then Raised StructError
  else Returned (decode_fields fs (drop (Z.to_nat off) data)).

(** The format string [f'>{n}f']: a negative repeat count is not a format. *)
Definition floats_format (n : Z) : outcome (list fmt) :=
  if n <? 0 then Raised StructError
  else Returned (replicate (Z.to_nat n) fmt_f).

(** ** The packet codec *)

Definition IENA_TRAILER : Z := 57005.   (* 0xDEAD *)
Definition HEADER_SIZE : Z := 16.
Definition TRAILER_SIZE : Z := 2.

Definition header_format : list fmt :=
  [fmt_H; fmt_H; fmt_I; fmt_H; fmt_H; fmt_H; fmt_H].

(** The dictionary returned by [parse_iena_packet]. *)
Record IenaPacket : Type := mkPacket {
  pkt_key : Z;
  pkt_size : Z;
  pkt_time_us : Z;
  pkt_status : Z;
  pkt_sequence : Z;
  pkt_n_params : Z;
  pkt_values : list Z
}.

(** [build_iena_packet] of the sender.  [us_since_midnight] is the integer
    of that name, which the function computes at its start from
    [datetime.now()]: the whole microseconds since midnight. *)
Definition build_iena_packet (us_since_midnight : Z)
    (key sequence : Z) (values : list Z) (num_params : Z) : outcome bytes :=
  let time_high := Z.land us_since_midnight 4294967295 in
  let time_low := 0 in
  let! ffmt := floats_format num_params in
  let! payload := struct_pack ffmt values in
  let total_bytes := 16 + Z.of_nat (length payload) + 2 in
  let size_words := total_bytes / 2 in
  let status := 0 in
  let! header := struct_pack header_format
                   [key; size_words; time_high; time_low; status;
                    Z.land sequence 65535; num_params] in
  let! trailer := struct_pack [fmt_H] [IENA_TRAILER] in
  Returned (header ++ payload ++ trailer).

(** [parse_iena_packet] of the receiver; [None] is Python's [None]. *)
Definition parse_iena_packet (data : bytes) (num_params : Z)
  : outcome (option IenaPacket) :=
  let payload_size := num_params * 4 in
  let expected_size := HEADER_SIZE + payload_size + TRAILER_SIZE in
  if Z.of_nat (length data) <? expected_size then Returned None
  else
    let! hdr := struct_unpack_from header_format data 0 in
    match hdr with
    | [key; size_words; time_high; time_low; status; seq; n2] =>
        let! tr := struct_unpack_from [fmt_H] data (HEADER_SIZE + payload_size) in
        match tr with
        | [trailer] =>
            if negb (trailer =? IENA_TRAILER) then Returned None
            else
              let! ffmt := floats_format num_params in
              let! values := struct_unpack_from ffmt data HEADER_SIZE in
              Returned (Some (mkPacket key size_words time_high status seq n2 values))
        | _ => Raised ValueError
        end
    | _ => Raised ValueError
    end.

(** The 16-bit big-endian value stored at byte offset [off] of [data]. *)
Definition u16_at (data : bytes) (off : Z) : Z :=
  256 * Z_of_byte (nth (Z.to_nat off) data x00)
  + Z_of_byte (nth (Z.to_nat off + 1) data x00).

(** ** Time

    [time.time()] and [time.monotonic()] return Python floats; the programs
    only subtract, add and compare them.  The development is parametric in
    the carrier and in these operations, so that every statement below holds
    for binary64 arithmetic in particular; [Z] gives an instance to compute
    with. *)

Class Clock (T : Type) : Type := {
  time_add : T -> T -> T;
  time_sub : T -> T -> T;
  time_ltb : T -> T -> bool;
  time_geb : T -> T -> bool
}.

#[export] Instance Z_Clock : Clock Z := {|
  time_add := Z.add;
  time_sub := Z.sub;
  time_ltb := Z.ltb;
  time_geb := Z.geb
|}.

(** ** [collections.deque(maxlen=...)] *)

Record deque (A : Type) : Type := mkDeque {
  d_items : list A;
  d_maxlen : nat
}.
Arguments mkDeque {A} d_items d_maxlen.
Arguments d_items {A} d.
Arguments d_maxlen {A} d.

Definition deque_new {A} (maxlen : nat) : deque A := mkDeque [] maxlen.

(** [d.append(x)]: add on the right, then drop the leftmost item when the
    deque has grown beyond [maxlen]. *)
Definition deque_append {A} (d : deque A) (x : A) : deque A :=
  let items := d_items d ++ [x] in
  mkDeque (if (d_maxlen d <? length items)%nat then drop 1 items else items)
          (d_maxlen d).

(** ** numpy boolean-mask indexing, [arr[mask]] *)

Fixpoint mask_select {A} (mask : list bool) (arr : list A) : list A :=
  match mask, arr with
  | b :: mask', x :: arr' =>
      if b then x :: mask_select mask' arr' else mask_select mask' arr'
  | _, _ => []
  end.

(** [arr[mask]] raises [IndexError] when the mask and the array differ in
    length. *)
Definition np_mask_index {A} (arr : list A) (mask : list bool) : outcome (list A) :=
  if (length arr =? length mask)%nat then Returned (mask_select mask arr)
  else Raised IndexError.

(** ** The filtered receiver, [IenaMulticastReceiver]

    The socket parameters ([groups], [port], [iface]) and the lock are not
    part of the state: every method body below is one atomic step. *)

Record IenaMulticastReceiver (T : Type) : Type := mkReceiver {
  key_filter : Z;
  window : T;
  param_names : list string;
  num_params : Z;
  timestamps : deque T;
  series : gmap string (deque Z);
  packet_count : Z;
  running : bool
}.
Arguments mkReceiver {T}.
Arguments key_filter {T}.
Arguments window {T}.
Arguments param_names {T}.
Arguments num_params {T}.
Arguments timestamps {T}.
Arguments series {T}.
Arguments packet_count {T}.
Arguments running {T}.

(** [{n: deque(maxlen=maxlen) for n in names}] *)
Definition new_series (maxlen : nat) (names : list string) : gmap string (deque Z) :=
  foldl (fun m n => <[n := deque_new maxlen]> m) ∅ names.

(** [__init__], with the local constant [maxlen] as a parameter. *)
Definition receiver_init_with {T} (maxlen : nat) (key : Z) (win : T)
    (names : list string) : IenaMulticastReceiver T :=
  mkReceiver key win names (Z.of_nat (length names))
             (deque_new maxlen) (new_series maxlen names) 0 true.

Definition receiver_init {T} (key : Z) (win : T) (names : list string)
  : IenaMulticastReceiver T :=
  receiver_init_with (Z.to_nat 10000) key win names.

(** [for i, name in enumerate(names): series[name].append(values[i])],
    from index [i] on. *)
Fixpoint append_values (names : list string) (i : nat) (values : list Z)
    (ser : gmap string (deque Z)) : outcome (gmap string (deque Z)) :=
  match names with
  | [] => Returned ser
  | name :: names' =>
      match ser !! name with
      | None => Raised KeyError
      | Some d =>
          match values !! i with
          | None => Raised IndexError
          | Some v => append_values names' (S i) values (<[name := deque_append d v]> ser)
          end
      end
  end.

(** The block of [_listen] that runs under the lock. *)
Definition append_sample {T} (st : IenaMulticastReceiver T) (now : T)
    (values : list Z) : outcome (IenaMulticastReceiver T) :=
  let ts := deque_append (timestamps st) now in
  let! ser := append_values (param_names st) 0 values (series st) in
  Returned (mkReceiver (key_filter st) (window st) (param_names st) (num_params st)
                       ts ser (packet_count st + 1) (running st)).

(** What [sock.recvfrom] gives within its timeout. *)
Inductive recv_result : Type :=
| RecvTimeout
| RecvData (data : bytes) (src_ip : string) (src_port : Z).

(** The body of the [while] loop of [_listen] on one receive; [now] is the
    reading of [time.time()] that is taken for a matching packet. *)
Definition listen_step {T} (st : IenaMulticastReceiver T) (r : recv_result)
    (now : T) : outcome (IenaMulticastReceiver T) :=
  match r with
  | RecvTimeout => Returned st
  | RecvData data _ _ =>
      let! pkt := parse_iena_packet data (num_params st) in
      match pkt with
      | None => Returned st
      | Some p =>
          if negb (pkt_key p =? key_filter st) then Returned st
          else append_sample st now (pkt_values p)
      end
  end.

(** [get_data] *)
Fixpoint masked_series (var_names : list string) (ser : gmap string (deque Z))
    (mask : list bool) (result : gmap string (list Z))
  : outcome (gmap string (list Z)) :=
  match var_names with
  | [] => Returned result
  | name :: rest =>
      match ser !! name with
      | None => Raised KeyError
      | Some d =>
          let! sel := np_mask_index (d_items d) mask in
          masked_series rest ser mask (<[name := sel]> result)
      end
  end.

Definition get_data {T} `{Clock T} (st : IenaMulticastReceiver T)
    (var_names : list string) : outcome (list T * gmap string (list Z)) :=
  let ts := d_items (timestamps st) in
  match last ts with
  | None => Returned ([], foldl (fun m n => <[n := []]> m) ∅ var_names)
  | Some now =>
      let cutoff := time_sub now (window st) in
      let mask := map (fun t => time_geb t cutoff) ts in
      let rel := map (fun t => time_sub t now) (mask_select mask ts) in
      let! result := masked_series var_names (series st) mask ∅ in
      Returned (rel, result)
  end.

Definition stop {T} (st : IenaMulticastReceiver T) : IenaMulticastReceiver T :=
  mkReceiver (key_filter st) (window st) (param_names st) (num_params st)
             (timestamps st) (series st) (packet_count st) false.

(** The operations on a receiver, as they interleave under the lock: one
    turn of the ingestion loop, a snapshot, a stop request. *)
Inductive receiver_op (T : Type) : Type :=
| OpReceive (r : recv_result) (now : T)
| OpGetData (var_names : list string)
| OpStop.
Arguments OpReceive {T}.
Arguments OpGetData {T}.
Arguments OpStop {T}.

(** The state after one operation.  The ingestion loop takes a turn only
    while [_running] holds; [get_data] reads and leaves the state as it is. *)
Definition receiver_step {T} (st : IenaMulticastReceiver T) (op : receiver_op T)
  : outcome (IenaMulticastReceiver T) :=
  match op with
  | OpReceive r now => if running st then listen_step st r now else Returned st
  | OpGetData _ => Returned st
  | OpStop => Returned (stop st)
  end.

Fixpoint receiver_run {T} (st : IenaMulticastReceiver T) (ops : list (receiver_op T))
  : outcome (IenaMulticastReceiver T) :=
  match ops with
  | [] => Returned st
  | op :: ops' => let! st' := receiver_step st op in receiver_run st' ops'
  end.

(** Feeding a list of samples to the locked block, in order. *)
Fixpoint append_samples {T} (st : IenaMulticastReceiver T) (samples : list (T * list Z))
  : outcome (IenaMulticastReceiver T) :=
  match samples with
  | [] => Returned st
  | (now, values) :: rest => let! st' := append_sample st now values in append_samples st' rest
  end.

(** ** Stream discovery, [discover_streams] *)

(** The value stored per stream, [{'count': .., 'first': .., 'last': ..}]. *)
Record StreamInfo (T : Type) : Type := mkInfo {
  info_count : Z;
  info_first : T;
  info_last : T
}.
Arguments mkInfo {T}.
Arguments info_count {T}.
Arguments info_first {T}.
Arguments info_last {T}.

(** The last four statements of the loop body; the two in-place updates act
    on the entry that is present after the first statement. *)
Definition record_stream {T} (streams : gmap (Z * string) (StreamInfo T))
    (ident : Z * string) (now : T) : gmap (Z * string) (StreamInfo T) :=
  let streams1 :=
    match streams !! ident with
    | None => <[ident := mkInfo 0 now now]> streams
    | Some _ => streams
    end in
  let streams2 :=
    alter (fun r => mkInfo (info_count r + 1) (info_first r) (info_last r)) ident streams1 in
  alter (fun r => mkInfo (info_count r) (info_first r) now) ident streams2.

(** What one turn of the discovery loop observes: the reading of
    [time.monotonic()] in the loop condition, the result of [recvfrom], and
    the reading of [time.monotonic()] taken for a decoded packet. *)
Record turn (T : Type) : Type := mkTurn {
  turn_check : T;
  turn_recv : recv_result;
  turn_now : T
}.
Arguments mkTurn {T}.
Arguments turn_check {T}.
Arguments turn_recv {T}.
Arguments turn_now {T}.

(** The body of the discovery loop after the loop condition held. *)
Definition discover_body {T} (num_params : Z)
    (streams : gmap (Z * string) (StreamInfo T)) (t : turn T)
  : outcome (gmap (Z * string) (StreamInfo T)) :=
  match turn_recv t with
  | RecvTimeout => Returned streams
  | RecvData data src_ip _ =>
      let! pkt := parse_iena_packet data num_params in
      match pkt with
      | None => Returned streams
      | Some p => Returned (record_stream streams (pkt_key p, src_ip) (turn_now t))
      end
  end.

(** The [while] loop from its [k]-th turn on.  [env k] is what the [k]-th
    turn observes; the loop may not end, so it runs on [fuel] and gives
    [None] when the fuel is spent. *)
Fixpoint discover_loop {T} `{Clock T} (fuel : nat) (env : nat -> turn T)
    (num_params : Z) (deadline : T) (k : nat)
    (streams : gmap (Z * string) (StreamInfo T))
  : option (outcome (gmap (Z * string) (StreamInfo T))) :=
  match fuel with
  | O => None
  | S fuel' =>
      if time_ltb (turn_check (env k)) deadline then
        match discover_body num_params streams (env k) with
        | Raised e => Some (Raised e)
        | Returned streams' => discover_loop fuel' env num_params deadline (S k) streams'
        end
      else Some (Returned streams)
  end.

(** [discover_streams], once the socket is open; [start] is the reading of
    [time.monotonic()] from which the deadline is computed. *)
Definition discover_streams {T} `{Clock T} (fuel : nat) (start : T)
    (env : nat -> turn T) (duration : T) (num_params : Z)
  : option (outcome (gmap (Z * string) (StreamInfo T))) :=
  let streams := ∅ in
  let deadline := time_add start duration in
  discover_loop fuel env num_params deadline 0 streams.

(** The loop body over a finite list of turns. *)
Fixpoint discover_turns {T} (num_params : Z)
    (streams : gmap (Z * string) (StreamInfo T)) (turns : list (turn T))
  : outcome (gmap (Z * string) (StreamInfo T)) :=
  match turns with
  | [] => Returned streams
  | t :: rest =>
      let! streams' := discover_body num_params streams t in
      discover_turns num_params streams' rest
  end.

(** The arrival times of the datagrams among [turns] that decode to the
    stream [ident], in order. *)
Definition decodes_to (num_params : Z) (ident : Z * string) (r : recv_result) : bool :=
  match r with
  | RecvTimeout => false
  | RecvData data src_ip _ =>
      match parse_iena_packet data num_params with
      | Returned (Some p) => bool_decide ((pkt_key p, src_ip) = ident)
      | _ => false
      end
  end.

Definition arrivals {T} (num_params : Z) (ident : Z * string) (turns : list (turn T))
  : list T :=
  map turn_now (List.filter (fun t => decodes_to num_params ident (turn_recv t)) turns).

(** The record the claim describes for a stream with the given arrivals. *)
Definition stream_record {T} (times : list T) : option (StreamInfo T) :=
  match times with
  | [] => None
  | t0 :: _ => Some (mkInfo (Z.of_nat (length times)) t0 (List.last times t0))
  end.

(** ** Command line checks of the two [main] functions *)

Inductive main_outcome : Type :=
| ParserError                                        (* parser.error: exit *)
| OpensSocket (param_names selected : list string).  (* goes on to the sockets *)

(** [[chr(ord('a') + i) for i in range(26)]] *)
Definition default_param_names : list string :=
  map (fun i => String (Ascii.ascii_of_nat (97 + i)) EmptyString) (seq 0 26).

(** The receiver's [main] up to the first socket, from the outcome of its
    two truth tests on.  [config] is [None] when [if args.config:] fails
    (there is no [--config], or its path is the empty string), [Some None]
    when the [try] block around [load_xidml] ended in [parser.error], and
    [Some (Some names)] with the names it loaded; [vars] is [None] when
    [if args.vars:] fails (there is no [--vars], or its value is the empty
    string) and else the list [[v.strip() for v in args.vars.split(',')]]. *)
Definition receiver_main_config (config : option (option (list string)))
    (vars : option (list string)) : main_outcome :=
  let loaded :=
    match config with
    | Some (Some names) => Some names
    | Some None => None
    | None => Some default_param_names
    end in
  match loaded with
  | None => ParserError
  | Some param_names =>
      let selected :=
        match vars with
        | Some vs => vs
        | None => take 3 param_names
        end in
      if forallb (fun v => bool_decide (v ∈ param_names)) selected
      then OpensSocket param_names selected
      else ParserError
  end.

(** The truth value of [args.config] and of [args.vars] in an [if]: the
    value [None] of an absent option and the empty string are false. *)
Definition truthy_arg (arg : option string) : option string :=
  match arg with
  | Some s => if String.eqb s EmptyString then None else Some s
  | None => None
  end.

(** The receiver's [main] from the parsed arguments on.  [config_arg] and
    [vars_arg] are the values of [args.config] and [args.vars]: [None]
    without the option, else its text.  [load path] is what the [try] block
    gives for the file at [path]: the names [load_xidml] returned, or [None]
    when an exception ended in [parser.error]; [split_strip s] is the list
    [[v.strip() for v in s.split(',')]]. *)
Definition receiver_main (load : string -> option (list string))
    (split_strip : string -> list string) (config_arg vars_arg : option string)
  : main_outcome :=
  receiver_main_config (load <$> truthy_arg config_arg)
                       (split_strip <$> truthy_arg vars_arg).

(** The sender's [main] up to its socket; [vars] is the list
    [[v.strip() for v in args.vars.split(',')]]. *)
Definition sender_main_config (vars : list string) : main_outcome :=
  let param_names := List.filter (fun v => negb (String.eqb v EmptyString)) vars in
  let num_params := Z.of_nat (length param_names) in
  if num_params =? 0 then ParserError
  else OpensSocket param_names param_names.

(** ** Predicates used in the statements *)

(** A value fits the field it is packed into. *)
Definition fits (c : fmt) (v : Z) : Prop := 0 <= v < 256 ^ Z.of_nat (fmt_width c).

Definition f32_eq (a b : Z) : Prop := f32_eqb a b = true.

(** The packet that [parse_iena_packet] reads off a well-formed buffer, field
    by field at the offsets of the wire format. *)
Definition decoded_packet (data : bytes) (num_params : Z) : IenaPacket :=
  mkPacket (be_value (take 2 data))
           (be_value (take 2 (drop 2 data)))
           (be_value (take 4 (drop 4 data)))
           (be_value (take 2 (drop 10 data)))
           (be_value (take 2 (drop 12 data)))
           (be_value (take 2 (drop 14 data)))
           (decode_fields (replicate (Z.to_nat num_params) fmt_f) (drop 16 data)).

(** The header fields [build_iena_packet] packs. *)
Definition header_values (us key sequence num_params : Z) : list Z :=
  [key; 9 + 2 * num_params; Z.land us 4294967295; 0; 0;
   Z.land sequence 65535; num_params].

(** The last [n] items of a list. *)
Definition lastn {A} (n : nat) (l : list A) : list A := drop (length l - n) l.

(** The state of a receiver built by [__init__] from unique names stays
    within this invariant. *)
Definition receiver_wf {T} (st : IenaMulticastReceiver T) : Prop :=
  NoDup (param_names st)
  /\ num_params st = Z.of_nat (length (param_names st))
  /\ (forall name, name ∈ param_names st <-> is_Some (series st !! name))
  /\ (forall name d, series st !! name = Some d ->
        length (d_items d) = length (d_items (timestamps st))
        /\ d_maxlen d = d_maxlen (timestamps st)).

(** The values of a packet that go to the buffer of [name]: the value at
    every position at which [name] stands among the configured names, in the
    order of the positions. *)
Definition values_of_name (name : string) (names : list string) (values : list Z)
  : list Z :=
  (List.filter (fun nv => bool_decide (nv.1 = name)) (zip names values)).*2.

(** What holds of every state of a receiver built by [__init__] from any
    list [names], unique or not, with the capacity [maxlen]. *)
Definition receiver_ok {T} (maxlen : nat) (names : list string)
    (st : IenaMulticastReceiver T) : Prop :=
  param_names st = names
  /\ num_params st = Z.of_nat (length names)
  /\ d_maxlen (timestamps st) = maxlen
  /\ (length (d_items (timestamps st)) <= maxlen)%nat
  /\ (forall name, name ∈ names <-> is_Some (series st !! name))
  /\ (forall name d, series st !! name = Some d ->
        d_maxlen d = maxlen /\ (length (d_items d) <= maxlen)%nat).

(** The positions of the samples inside the display window: those whose
    timestamp is at least [latest - win]. *)
Definition window_indices {T} `{Clock T} (ts : list T) (latest win : T) : list nat :=
  List.filter (fun i => time_geb (nth i ts latest) (time_sub latest win))
              (seq 0 (length ts)).

(** A datagram the ingestion loop drops: malformed, or of another key. *)
Definition dropped {T} (st : IenaMulticastReceiver T) (r : recv_result) : Prop :=
  match r with
  | RecvTimeout => True
  | RecvData data _ _ =>
      parse_iena_packet data (num_params st) = Returned None
      \/ exists p, parse_iena_packet data (num_params st) = Returned (Some p)
                   /\ pkt_key p <> key_filter st
  end.

(** ** Sample data *)

(** A datagram with key 0x0A01, sequence 7, one parameter of value 1.0 and
    the trailer 0xDEAD. *)
Definition sample_datagram : bytes :=
  [x0a; x01; x00; x0b; x00; x00; x00; x00; x00; x00; x00; x00; x00; x07; x00; x01;
   x3f; x80; x00; x00; xde; xad].

(** A datagram of two parameters whose second value has the high half
    0xDEAD: key 0x0A01, sequence 7, values 1.0 and the pattern 0xDEAD0000. *)
Definition trailer_like_datagram : bytes :=
  [x0a; x01; x00; x0d; x00; x00; x00; x00; x00; x00; x00; x00; x00; x07; x00; x02;
   x3f; x80; x00; x00; xde; xad; x00; x00; xde; xad].

(** The datagram [sample_datagram] under key 0x0B02. *)
Definition other_datagram : bytes :=
  [x0b; x02; x00; x0b; x00; x00; x00; x00; x00; x00; x00; x00; x00; x07; x00; x01;
   x3f; x80; x00; x00; xde; xad].

(** The datagram [sample_datagram] with [b] as the last byte of its value:
    the value is the pattern 0x3F8000bb, a float just above 1.0. *)
Definition sample_datagram_with (b : byte) : bytes :=
  take 19 sample_datagram ++ [b; xde; xad].

(** A datagram of key 0x0A01 that holds the two values 1.0 and 2.0. *)
Definition two_value_datagram : bytes :=
  take 16 sample_datagram ++ [x3f; x80; x00; x00; x40; x00; x00; x00; xde; xad].

(** Ten turns of the ingestion loop, at the seconds 0 to 9; the [k]-th
    receives a datagram of key 0x0A01 with the value 0x3F800000 + k. *)
Definition window_example_ops : list (receiver_op Z) :=
  map (fun k => OpReceive (RecvData (sample_datagram_with (byte_of_Z (Z.of_nat k)))
                                    "10.0.0.1" 5001)
                          (Z.of_nat k))
      (seq 0 10).

(** The receiver of one parameter, with a display window of 3 seconds, after
    these ten turns: it holds ten samples taken at the seconds 0 to 9. *)
Definition window_example_state : IenaMulticastReceiver Z :=
  mkReceiver 2561 3 ["a"%string] 1
    (mkDeque [0; 1; 2; 3; 4; 5; 6; 7; 8; 9] (Z.to_nat 10000))
    {["a"%string := mkDeque [1065353216; 1065353217; 1065353218; 1065353219;
                             1065353220; 1065353221; 1065353222; 1065353223;
                             1065353224; 1065353225]
                            (Z.to_nat 10000)]}
    10 true.

(** Fifteen samples of two parameters, taken at the seconds 0 to 14. *)
Definition fifteen_samples : list (Z * list Z) :=
  map (fun k => (Z.of_nat k, [100 + Z.of_nat k; 200 + Z.of_nat k])) (seq 0 15).

(** A scan of ten seconds: five datagrams of key 0x0A01 from 10.0.0.1, a
    timeout, a datagram that is too short, three datagrams of key 0x0B02
    from 10.0.0.2, and more traffic from the tenth second on. *)
Definition example_env (k : nat) : turn Z :=
  let t := Z.of_nat k in
  if (k <? 5)%nat then mkTurn t (RecvData sample_datagram "10.0.0.1" 5001) t
  else if (k =? 5)%nat then mkTurn t RecvTimeout t
  else if (k =? 6)%nat then mkTurn t (RecvData [x0a; x01] "10.0.0.3" 5001) t
  else if (k <? 10)%nat then mkTurn t (RecvData other_datagram "10.0.0.2" 5001) t
  else mkTurn t (RecvData sample_datagram "10.0.0.1" 5001) t.

(** ** Stable sorting, as [list.sort] and [sorted] do

    The result of a stable sort is determined by the order alone; it is
    computed here by insertion from the right, which puts an item before the
    items that are not below it and that followed it in the input. *)

Fixpoint insert_sorted {A} (leb : A -> A -> bool) (x : A) (l : list A) : list A :=
  match l with
  | [] => [x]
  | y :: l' => if leb x y then x :: y :: l' else y :: insert_sorted leb x l'
  end.

Definition stable_sort {A} (leb : A -> A -> bool) (l : list A) : list A :=
  foldr (insert_sorted leb) [] l.

(** ** The XidML metadata, [generate_xidml] and [load_xidml]

    Of the document only the [Parameter] elements matter to [load_xidml]:
    each with its [name] attribute, if any, and its [index] attribute, which
    is absent, the text of an integer, or a text [int] rejects. *)

Inductive index_attr : Type :=
| IndexAbsent
| IndexInt (i : Z)
| IndexNotInt.

Record ParameterElement : Type := mkParameter {
  par_name : option string;
  par_index : index_attr
}.

(** The loop of [load_xidml] over [root.iter('Parameter')]. *)
Fixpoint xidml_params (els : list ParameterElement) (params : list (Z * option string))
  : outcome (list (Z * option string)) :=
  match els with
  | [] => Returned params
  | param :: rest =>
      let name := par_name param in
      let! index :=
        match par_index param with
        | IndexAbsent => Returned (Z.of_nat (length params))
        | IndexInt i => Returned i
        | IndexNotInt => Raised ValueError
        end in
      xidml_params rest (params ++ [(index, name)])
  end.

Definition load_xidml (els : list ParameterElement) : outcome (list (option string)) :=
  let! params := xidml_params els [] in
  Returned (map snd (stable_sort (fun p q => p.1 <=? q.1) params)).

(** The [Parameter] elements that [generate_xidml] creates in its document,
    with the two attributes it sets on each: [name], and [index] with the
    text [str(idx)]. *)
Definition generate_xidml_parameters (var_names : list string) : list ParameterElement :=
  imap (fun idx name => mkParameter (Some name) (IndexInt (Z.of_nat idx))) var_names.

(** *** The file between the sender and the receiver

    [generate_xidml] writes its document with [toprettyxml] of
    [xml.dom.minidom], and [load_xidml] reads the file with
    [ElementTree.parse].  In an attribute value the writer escapes the
    ampersand, the angle brackets and the double quote, which the parser
    undoes, and writes every other character as it is.  The parser turns a
    tab, a line feed and a carriage return of an attribute value into a
    space (a carriage return and the line feed after it into one space) and
    rejects the file when an attribute value holds another character below
    U+0020.  The characters of a name are its code points, below 256. *)

Definition xml_rejects (c : Ascii.ascii) : bool :=
  let n := Ascii.nat_of_ascii c in
  (n <? 32)%nat && negb ((n =? 9)%nat || (n =? 10)%nat || (n =? 13)%nat).

Fixpoint xml_normalize (s : string) : string :=
  match s with
  | EmptyString => EmptyString
  | String c s' =>
      if (Ascii.nat_of_ascii c =? 13)%nat then
        match s' with
        | String c' s'' =>
            if (Ascii.nat_of_ascii c' =? 10)%nat
            then String (Ascii.ascii_of_nat 32) (xml_normalize s'')
            else String (Ascii.ascii_of_nat 32) (xml_normalize s')
        | EmptyString => String (Ascii.ascii_of_nat 32) EmptyString
        end
      else if ((Ascii.nat_of_ascii c =? 9) || (Ascii.nat_of_ascii c =? 10))%nat
      then String (Ascii.ascii_of_nat 32) (xml_normalize s')
      else String c (xml_normalize s')
  end.

(** The value the parser gives for an attribute that the writer wrote with
    the value [s]; [None] when the parser rejects the file for it. *)
Definition xml_attribute_read_back (s : string) : option string :=
  if existsb xml_rejects (String.list_ascii_of_string s) then None
  else Some (xml_normalize s).

(** The [Parameter] elements that [ElementTree.parse] finds in the file
    [generate_xidml] wrote for [var_names]; [None] when it rejects the file.
    The text [str(idx)] of an index holds digits only and is read as it was
    written. *)
Definition read_generated_parameters (var_names : list string)
  : option (list ParameterElement) :=
  generate_xidml_parameters <$> mapM xml_attribute_read_back var_names.


(** The name [a<tab>b] and the name [a<U+0001>b]. *)
Definition name_with_tab : string :=
  String (Ascii.ascii_of_nat 97)
    (String (Ascii.ascii_of_nat 9) (String (Ascii.ascii_of_nat 98) EmptyString)).
Definition name_with_control : string :=
  String (Ascii.ascii_of_nat 97)
    (String (Ascii.ascii_of_nat 1) (String (Ascii.ascii_of_nat 98) EmptyString)).



(** The pairs [(index, name)] that the loop of [load_xidml] collects: the
    index is the attribute's integer, or the position of the element in the
    document when the attribute is absent. *)
Definition indexed_parameters (els : list ParameterElement) : list (Z * option string) :=
  imap (fun j el =>
          (match par_index el with
           | IndexInt i => i
           | _ => Z.of_nat j
           end, par_name el)) els.

(** ** Choosing a stream, [choose_stream] *)

(** What the user types at the prompt, as the loop tells it apart: [q] in
    either case, the text of an integer, anything else.  The end of the list
    is the end of the input, on which [input] raises [EOFError]. *)
Inductive user_input : Type :=
| InputQuit
| InputNumber (n : Z)
| InputOther.

(** The order of [sorted] on the keys [(key, src_ip)] of the mapping. *)
Definition ident_leb (a b : Z * string) : bool :=
  (a.1 <? b.1) || ((a.1 =? b.1) && String.leb a.2 b.2).

(** [sorted(streams.items())]; the keys of a dictionary differ, so the
    values are never compared. *)
Definition sorted_streams {T} (streams : gmap (Z * string) (StreamInfo T))
  : list ((Z * string) * StreamInfo T) :=
  stable_sort (fun a b => ident_leb a.1 b.1) (map_to_list streams).

(** The [while True] loop of [choose_stream]. *)
Fixpoint select_stream {T} (entries : list ((Z * string) * StreamInfo T))
    (stdin : list user_input) : option Z :=
  match stdin with
  | [] => None
  | InputQuit :: _ => None
  | InputNumber idx :: rest =>
      if (1 <=? idx) && (idx <=? Z.of_nat (length entries)) then
        match entries !! Z.to_nat (idx - 1) with
        | Some e => Some e.1.1
        | None => None
        end
      else select_stream entries rest
  | InputOther :: rest => select_stream entries rest
  end.

Definition choose_stream {T} (streams : gmap (Z * string) (StreamInfo T))
    (stdin : list user_input) : option Z :=
  if (size streams =? 0)%nat then None
  else select_stream (sorted_streams streams) stdin.

(** ** Further sample data *)

(** The mapping of a scan that found two streams. *)
Definition two_streams : gmap (Z * string) (StreamInfo Z) :=
  <[(2818, "10.0.0.2"%string) := mkInfo 3 7 9]>
    (<[(2561, "10.0.0.1"%string) := mkInfo 5 0 4]> ∅).

(** * Properties *)

(** ** Bytes *)

Lemma Z_of_byte_range (b : byte) : 0 <= Z_of_byte b < 256.
Proof.
  unfold Z_of_byte. pose proof (Byte.to_N_bounded b). lia.
Qed.

Lemma Z_of_byte_of_Z (z : Z) : Z_of_byte (byte_of_Z z) = z mod 256.
Proof.
  unfold Z_of_byte, byte_of_Z.
  assert (Hr : 0 <= z mod 256 < 256) by (apply Z.mod_pos_bound; lia).
  destruct (Byte.of_N (Z.to_N (z mod 256))) as [b|] eqn:E.
  - apply Byte.to_of_N in E. rewrite E. lia.
  - apply Byte.of_N_None_iff in E. lia.
Qed.

Lemma length_be_bytes (n : nat) (v : Z) : length (be_bytes n v) = n.
Proof. induction n; simpl; congruence. Qed.

Lemma be_value_snoc (bs : bytes) (b : byte) :
  be_value (bs ++ [b]) = be_value bs * 256 + Z_of_byte b.
Proof. unfold be_value. by rewrite fold_left_app. Qed.

Lemma be_value_cons (b : byte) (bs : bytes) :
  be_value (b :: bs) = Z_of_byte b * 256 ^ Z.of_nat (length bs) + be_value bs.
Proof.
  revert b. induction bs as [|c bs IH] using rev_ind; intros b.
  - unfold be_value. simpl. lia.
  - change (b :: bs ++ [c]) with ((b :: bs) ++ [c]).
    rewrite !be_value_snoc, IH, length_app. simpl length.
    replace (Z.of_nat (length bs + 1)) with (Z.of_nat (length bs) + 1) by lia.
    rewrite Z.pow_add_r by lia. lia.
Qed.

Lemma be_value_range (bs : bytes) : 0 <= be_value bs < 256 ^ Z.of_nat (length bs).
Proof.
  induction bs as [|b bs IH].
  - unfold be_value. simpl. lia.
  - rewrite be_value_cons. pose proof (Z_of_byte_range b).
    simpl length. rewrite Nat2Z.inj_succ, Z.pow_succ_r by lia. nia.
Qed.

Lemma be_value_be_bytes (n : nat) (v : Z) :
  be_value (be_bytes n v) = v mod 256 ^ Z.of_nat n.
Proof.
  induction n as [|n IH].
  - simpl. unfold be_value. simpl. by rewrite Z.mod_1_r.
  - simpl be_bytes. rewrite be_value_cons, length_be_bytes, IH, Z_of_byte_of_Z.
    rewrite Nat2Z.inj_succ, Z.pow_succ_r by lia.
    assert (Hp : 0 < 256 ^ Z.of_nat n) by (apply Z.pow_pos_nonneg; lia).
    rewrite (Z.mul_comm 256), Z.rem_mul_r by lia. lia.
Qed.

(** ** Quieting a NaN *)

Lemma f32_quiet_non_nan (b : Z) : f32_is_nan b = false -> f32_quiet b = b.
Proof. intros Hn. unfold f32_quiet. by rewrite Hn. Qed.

Lemma map_f32_quiet_non_nan (values : list Z) :
  Forall (fun v => f32_is_nan v = false) values -> map f32_quiet values = values.
Proof.
  induction 1 as [|v values Hv _ IH]; [done|].
  cbn [map]. by rewrite IH, f32_quiet_non_nan.
Qed.

(** Setting bit 22 keeps a pattern below [2^n] for every width [n] above
    22: the quiet NaN has the sign and the width of the signalling one. *)
Lemma f32_quiet_range (n b : Z) :
  23 <= n -> 0 <= b < 2 ^ n -> 0 <= f32_quiet b < 2 ^ n.
Proof.
  intros Hn Hb. unfold f32_quiet. destruct (f32_is_nan b); [|done].
  assert (H0 : 0 <= Z.lor b 4194304) by (apply Z.lor_nonneg; lia).
  split; [done|].
  assert (Hs : Z.shiftr (Z.lor b 4194304) n = 0).
  { rewrite Z.shiftr_lor, (Z.shiftr_div_pow2 b), (Z.shiftr_div_pow2 4194304) by lia.
    rewrite (Z.div_small b) by lia.
    rewrite (Z.div_small 4194304); [done|]. split; [lia|].
    change 4194304 with (2 ^ 22). apply Z.pow_lt_mono_r; lia. }
  rewrite Z.shiftr_div_pow2 in Hs by lia.
  apply Z.div_small_iff in Hs; lia.
Qed.

Lemma f32_quiet_is_f32 (b : Z) : is_f32 b -> is_f32 (f32_quiet b).
Proof. unfold is_f32. apply f32_quiet_range. lia. Qed.

(** ** The struct fragment *)

Lemma pack_field_inv (c : fmt) (v : Z) (b : bytes) :
  pack_field c v = Returned b ->
  b = be_bytes (fmt_width c) (match c with fmt_f => f32_quiet v | _ => v end)
  /\ (c <> fmt_f -> fits c v).
Proof.
  unfold fits. destruct c; simpl.
  - destruct (0 <=? v) eqn:E1, (v <=? 65535) eqn:E2; simpl; intros [= <-].
    split; [done|]. intros _. lia.
  - destruct (0 <=? v) eqn:E1, (v <=? 4294967295) eqn:E2; simpl; intros [= <-].
    split; [done|]. intros _. lia.
  - intros [= <-]. by split.
Qed.

Lemma struct_pack_length (fs : list fmt) (vals : list Z) (bs : bytes) :
  struct_pack fs vals = Returned bs -> length bs = calcsize fs.
Proof.
  revert vals bs. induction fs as [|c fs IH]; intros [|v vals] bs; simpl; try done.
  - by intros [= <-].
  - destruct (pack_field c v) as [|b] eqn:Eb; simpl; [done|].
    destruct (struct_pack fs vals) as [|rest] eqn:Er; simpl; [done|].
    intros [= <-]. apply pack_field_inv in Eb as [-> _].
    rewrite length_app, length_be_bytes. f_equal. by eapply IH.
Qed.

(** What was packed is read back; a float that is no NaN comes back as the
    pattern that was sent. *)
Lemma decode_fields_pack (fs : list fmt) (vals : list Z) (bs rest : bytes) :
  struct_pack fs vals = Returned bs ->
  Forall2 (fun c v => c = fmt_f -> is_f32 v /\ f32_is_nan v = false) fs vals ->
  decode_fields fs (bs ++ rest) = vals.
Proof.
  revert vals bs. induction fs as [|c fs IH]; intros [|v vals] bs; simpl; try done.
  destruct (pack_field c v) as [|b] eqn:Eb; simpl; [done|].
  destruct (struct_pack fs vals) as [|tl] eqn:Er; simpl; [done|].
  intros [= <-] Hf. apply Forall2_cons in Hf as [Hv Hf].
  apply pack_field_inv in Eb as [-> Hfit].
  rewrite <- app_assoc.
  rewrite take_app_length', drop_app_length' by (by rewrite length_be_bytes).
  f_equal.
  - unfold unpack_field. rewrite be_value_be_bytes.
    destruct c.
    + apply Z.mod_small, Hfit. done.
    + apply Z.mod_small, Hfit. done.
    + destruct Hv as [Hv Hn]; [done|].
      rewrite (f32_quiet_non_nan v Hn), Z.mod_small by apply Hv.
      by apply f32_quiet_non_nan.
  - by apply IH.
Qed.

(** The payload [struct.pack(f'>{n}f', *values)] writes. *)
Lemma struct_pack_floats (values : list Z) :
  struct_pack (replicate (length values) fmt_f) values
  = Returned (concat (map (be_bytes 4) (map f32_quiet values))).
Proof.
  induction values as [|v values IH]; simpl; [done|]. by rewrite IH.
Qed.

Lemma calcsize_floats (n : nat) : calcsize (replicate n fmt_f) = (4 * n)%nat.
Proof. induction n; simpl in *; lia. Qed.

Lemma length_decode_fields (fs : list fmt) (bs : bytes) :
  length (decode_fields fs bs) = length fs.
Proof. revert bs. induction fs; intros bs; simpl; auto. Qed.

(** For a non-negative offset [struct_unpack_from] reads at the offset when
    the buffer is long enough. *)
Lemma struct_unpack_from_ok (fs : list fmt) (data : bytes) (off : Z) :
  0 <= off -> off + Z.of_nat (calcsize fs) <= Z.of_nat (length data) ->
  struct_unpack_from fs data off
  = Returned (decode_fields fs (drop (Z.to_nat off) data)).
Proof.
  intros H0 Hlen. unfold struct_unpack_from.
  rewrite (proj2 (Z.ltb_ge off 0)) by lia. cbn [obind].
  by rewrite (proj2 (Z.ltb_ge _ _)) by lia.
Qed.

Lemma struct_pack_ok (fs : list fmt) (vals : list Z) :
  Forall2 fits fs vals -> returns (struct_pack fs vals).
Proof.
  revert vals. induction fs as [|c fs IH]; intros vals Hf; inversion Hf; subst.
  - by exists [].
  - destruct (IH _ H3) as [rest Hr]. simpl. rewrite Hr.
    unfold fits in H1. destruct c; simpl in *.
    + rewrite (proj2 (Z.leb_le 0 y)), (proj2 (Z.leb_le y 65535)) by lia.
      by eexists.
    + rewrite (proj2 (Z.leb_le 0 y)), (proj2 (Z.leb_le y 4294967295)) by lia.
      by eexists.
    + by eexists.
Qed.

Lemma u16_at_drop (data : bytes) (off : Z) :
  0 <= off -> off + 2 <= Z.of_nat (length data) ->
  be_value (take 2 (drop (Z.to_nat off) data)) = u16_at data off.
Proof.
  intros H0 Hlen. unfold u16_at.
  rewrite <- (take_drop (Z.to_nat off) data) at 2 3.
  assert (Hl : length (take (Z.to_nat off) data) = Z.to_nat off)
    by (rewrite length_take; lia).
  rewrite !app_nth2 by lia. rewrite Hl.
  replace (Z.to_nat off - Z.to_nat off)%nat with 0%nat by lia.
  replace (Z.to_nat off + 1 - Z.to_nat off)%nat with 1%nat by lia.
  assert (Hd : (2 <= length (drop (Z.to_nat off) data))%nat)
    by (rewrite length_drop; lia).
  destruct (drop (Z.to_nat off) data) as [|a [|b tl]]; simpl in Hd; try lia.
  simpl. unfold be_value. simpl. lia.
Qed.

(** ** parse_iena_packet, unfolded for a non-negative parameter count *)

Lemma parse_iena_packet_eq (data : bytes) (num_params : Z) :
  0 <= num_params ->
  parse_iena_packet data num_params =
    if Z.of_nat (length data) <? 16 + 4 * num_params + 2 then Returned None
    else if u16_at data (16 + 4 * num_params) =? IENA_TRAILER
         then Returned (Some (decoded_packet data num_params))
         else Returned None.
Proof.
  intros HN. unfold parse_iena_packet, HEADER_SIZE, TRAILER_SIZE.
  replace (16 + num_params * 4 + 2) with (16 + 4 * num_params + 2) by lia.
  destruct (Z.of_nat (length data) <? 16 + 4 * num_params + 2) eqn:Elen; [done|].
  apply Z.ltb_ge in Elen.
  rewrite struct_unpack_from_ok by (simpl; lia).
  cbn [decode_fields unpack_field header_format fmt_width obind Z.to_nat drop].
  rewrite !drop_drop. cbn [Nat.add].
  rewrite struct_unpack_from_ok by (simpl; lia).
  cbn [decode_fields unpack_field fmt_width obind].
  replace (16 + num_params * 4) with (16 + 4 * num_params) by lia.
  rewrite u16_at_drop by lia.
  destruct (u16_at data (16 + 4 * num_params) =? IENA_TRAILER); cbn [negb]; [|done].
  unfold floats_format. rewrite (proj2 (Z.ltb_ge num_params 0)) by lia.
  cbn [obind].
  rewrite struct_unpack_from_ok by (rewrite ?calcsize_floats; lia).
  done.
Qed.

(** ** build_iena_packet *)

Lemma length_packed_floats (values : list Z) :
  length (concat (map (be_bytes 4) values)) = (4 * length values)%nat.
Proof.
  induction values as [|v values IH]; [done|].
  cbn [map concat]. rewrite length_app, length_be_bytes, IH. simpl. lia.
Qed.

Lemma length_payload (values : list Z) :
  length (concat (map (be_bytes 4) (map f32_quiet values))) = (4 * length values)%nat.
Proof. by rewrite length_packed_floats, length_map. Qed.

Lemma land_ones_range (a : Z) (n : Z) : 0 <= n -> 0 <= Z.land a (Z.ones n) < 2 ^ n.
Proof.
  intros Hn. rewrite Z.land_ones by lia. apply Z.mod_pos_bound.
  by apply Z.pow_pos_nonneg.
Qed.

Lemma build_iena_packet_eq (us key sequence : Z) (values : list Z) (num_params : Z) :
  0 <= num_params <= 32763 -> 0 <= key < 65536 ->
  Z.of_nat (length values) = num_params ->
  exists hdr,
    struct_pack header_format (header_values us key sequence num_params) = Returned hdr
    /\ build_iena_packet us key sequence values num_params
       = Returned (hdr ++ concat (map (be_bytes 4) (map f32_quiet values))
                       ++ be_bytes 2 IENA_TRAILER).
Proof.
  intros HN Hkey Hlen.
  assert (Hfit : Forall2 fits header_format (header_values us key sequence num_params)).
  { pose proof (land_ones_range us 32 ltac:(lia)) as Ht.
    pose proof (land_ones_range sequence 16 ltac:(lia)) as Hs.
    change (Z.ones 32) with 4294967295 in Ht. change (Z.ones 16) with 65535 in Hs.
    unfold header_format, header_values.
    repeat (apply Forall2_cons; split); try apply Forall2_nil;
      unfold fits; simpl fmt_width; lia. }
  destruct (struct_pack_ok _ _ Hfit) as [hdr Hhdr].
  exists hdr. split; [done|].
  unfold build_iena_packet, floats_format.
  rewrite (proj2 (Z.ltb_ge num_params 0)) by lia. cbn [obind].
  replace (Z.to_nat num_params) with (length values) by lia.
  rewrite struct_pack_floats. cbn [obind].
  rewrite length_payload.
  replace ((16 + Z.of_nat (4 * length values) + 2) / 2) with (9 + 2 * num_params).
  2:{ apply Z.div_unique_exact; lia. }
  unfold header_values in Hhdr. rewrite Hhdr. done.
Qed.

Lemma Forall2_floats_f32 (l : list Z) :
  Forall is_f32 l ->
  Forall (fun v => f32_is_nan v = false) l ->
  Forall2 (fun c v => c = fmt_f -> is_f32 v /\ f32_is_nan v = false)
          (replicate (length l) fmt_f) l.
Proof.
  intros Hf Hn. induction Hf as [|v l Hv Hf IH]; simpl; [constructor|].
  apply Forall_cons_1 in Hn as [Hnv Hn]. constructor; auto.
Qed.

Lemma f32_eq_refl (a : Z) : f32_is_nan a = false -> f32_eq a a.
Proof.
  intros Hn. unfold f32_eq, f32_eqb. rewrite Hn. simpl. by rewrite Z.eqb_refl.
Qed.

(** The round trip on bit patterns: every field the sender writes is read
    back, for any parameter count the 16-bit size field can describe and any
    values none of which is a NaN. *)
Lemma parse_build_iena_packet (us key sequence : Z) (values : list Z) (num_params : Z) :
  0 <= num_params <= 32763 -> 0 <= key < 65536 ->
  Z.of_nat (length values) = num_params ->
  Forall is_f32 values ->
  Forall (fun v => f32_is_nan v = false) values ->
  exists data,
    build_iena_packet us key sequence values num_params = Returned data
    /\ Z.of_nat (length data) = 16 + 4 * num_params + 2
    /\ u16_at data (16 + 4 * num_params) = IENA_TRAILER
    /\ parse_iena_packet data num_params
       = Returned (Some (mkPacket key (9 + 2 * num_params) (Z.land us 4294967295)
                                  0 (Z.land sequence 65535) num_params values)).
Proof.
  intros HN Hkey Hlen Hf32 Hnan.
  destruct (build_iena_packet_eq us key sequence values num_params HN Hkey Hlen)
    as (hdr & Hhdr & Hbuild).
  set (payload := concat (map (be_bytes 4) (map f32_quiet values))) in *.
  set (data := hdr ++ payload ++ be_bytes 2 IENA_TRAILER) in *.
  assert (Hlh : length hdr = 16%nat) by (by apply struct_pack_length in Hhdr).
  assert (Hlp : length payload = (4 * length values)%nat)
    by apply length_payload.
  assert (Hld : Z.of_nat (length data) = 16 + 4 * num_params + 2).
  { unfold data. rewrite !length_app, Hlh, Hlp, length_be_bytes. lia. }
  assert (Htr : u16_at data (16 + 4 * num_params) = IENA_TRAILER).
  { rewrite <- u16_at_drop by lia. unfold data.
    rewrite app_assoc, drop_app_length'; [done|].
    rewrite length_app, Hlh, Hlp. lia. }
  exists data. repeat split; try done.
  rewrite parse_iena_packet_eq by lia.
  rewrite (proj2 (Z.ltb_ge _ _)) by lia.
  rewrite Htr, Z.eqb_refl. do 2 f_equal.
  assert (Hd : decode_fields header_format data
               = header_values us key sequence num_params).
  { unfold data. apply decode_fields_pack; [done|].
    unfold header_format, header_values.
    repeat (apply Forall2_cons; split); try apply Forall2_nil; done. }
  cbn [decode_fields header_format fmt_width] in Hd.
  rewrite !drop_drop in Hd. cbn [Nat.add] in Hd.
  unfold header_values in Hd. injection Hd as E1 E2 E3 _ E5 E6 E7.
  unfold decoded_packet. rewrite E1, E2, E3, E5, E6, E7. f_equal.
  unfold data. rewrite (drop_app_length' hdr _ 16) by (symmetry; exact Hlh).
  replace (Z.to_nat num_params) with (length values) by lia.
  apply decode_fields_pack; [apply struct_pack_floats|].
  by apply Forall2_floats_f32.
Qed.

(** ** The codec claims *)

(** C1, as amended: for every parameter count N in [1, 64], every key and
    sequence in [0, 65536) and every list of N binary32 values none of which
    is a NaN, [build_iena_packet] returns a packet whose trailer validates
    and which [parse_iena_packet], configured with the same N, decodes to the
    same key, the same sequence and the same N values under IEEE equality. *)
Theorem roundtrip_non_nan (us key sequence : Z) (values : list Z) (N : Z) :
  1 <= N <= 64 -> 0 <= key < 65536 -> 0 <= sequence < 65536 ->
  Z.of_nat (length values) = N ->
  Forall is_f32 values ->
  Forall (fun v => f32_is_nan v = false) values ->
  exists data pkt,
    build_iena_packet us key sequence values N = Returned data
    /\ u16_at data (16 + 4 * N) = IENA_TRAILER
    /\ parse_iena_packet data N = Returned (Some pkt)
    /\ pkt_key pkt = key
    /\ pkt_sequence pkt = sequence
    /\ Forall2 f32_eq (pkt_values pkt) values.
Proof.
  intros HN Hkey Hseq Hlen Hf32 Hnan.
  destruct (parse_build_iena_packet us key sequence values N) as
    (data & Hb & _ & Htr & Hp); try done; [lia|].
  eexists data, _. repeat split; try done; simpl.
  - change 65535 with (Z.ones 16). rewrite Z.land_ones by lia.
    apply Z.mod_small. lia.
  - clear -Hnan. induction Hnan; constructor; auto using f32_eq_refl.
Qed.

Lemma roundtrip_non_nan_witness :
  exists data pkt,
    build_iena_packet 0 2561 7 [1065353216; 3221225472] 2 = Returned data
    /\ u16_at data (16 + 4 * 2) = IENA_TRAILER
    /\ parse_iena_packet data 2 = Returned (Some pkt)
    /\ pkt_key pkt = 2561
    /\ pkt_sequence pkt = 7
    /\ Forall2 f32_eq (pkt_values pkt) [1065353216; 3221225472].
Proof.
  apply roundtrip_non_nan; try lia; try reflexivity.
  - repeat constructor; unfold is_f32; lia.
  - repeat constructor.
Defined.

(** C1 as stated fails on a NaN: the quiet NaN 0x7FC00000 is a binary32
    value, it is sent and decoded, and it is not equal to itself. *)
Lemma roundtrip_nan_counterexample :
  1 <= 1 <= 64 /\ 0 <= 2561 < 65536 /\ 0 <= 0 < 65536 /\
  Forall is_f32 [2143289344] /\
  exists data pkt,
    build_iena_packet 0 2561 0 [2143289344] 1 = Returned data
    /\ parse_iena_packet data 1 = Returned (Some pkt)
    /\ ~ Forall2 f32_eq (pkt_values pkt) [2143289344].
Proof.
  repeat split; try lia.
  - repeat constructor; unfold is_f32; lia.
  - eexists _, _. split; [vm_compute; reflexivity|].
    split; [vm_compute; reflexivity|].
    intros Hf. apply Forall2_cons in Hf as [Hf _]. vm_compute in Hf. discriminate.
Qed.

(** C2: for every buffer and every configured parameter count N >= 0,
    [parse_iena_packet] returns without raising; it returns [None] exactly
    when the buffer is shorter than 16 + 4N + 2 bytes or the big-endian
    16-bit value at offset 16 + 4N is not 0xDEAD, and a packet with N values
    otherwise, whatever the size and n2 fields say. *)
Theorem parse_rejects_exactly_malformed (data : bytes) (N : Z) :
  0 <= N ->
  returns (parse_iena_packet data N)
  /\ (parse_iena_packet data N = Returned None <->
      (Z.of_nat (length data) < 16 + 4 * N + 2
       \/ u16_at data (16 + 4 * N) <> IENA_TRAILER))
  /\ (16 + 4 * N + 2 <= Z.of_nat (length data) ->
      u16_at data (16 + 4 * N) = IENA_TRAILER ->
      exists pkt, parse_iena_packet data N = Returned (Some pkt)
                  /\ Z.of_nat (length (pkt_values pkt)) = N).
Proof.
  intros HN. rewrite parse_iena_packet_eq by done.
  destruct (Z.of_nat (length data) <? 16 + 4 * N + 2) eqn:Elen.
  - apply Z.ltb_lt in Elen. split; [by eexists|]. split; [|lia].
    split; auto.
  - apply Z.ltb_ge in Elen.
    destruct (u16_at data (16 + 4 * N) =? IENA_TRAILER) eqn:Etr.
    + apply Z.eqb_eq in Etr. split; [by eexists|]. split.
      * split; [done|]. intros [?|?]; [lia|done].
      * intros _ _. eexists. split; [done|]. simpl.
        rewrite length_decode_fields, length_replicate. lia.
    + apply Z.eqb_neq in Etr. split; [by eexists|]. split; [|done].
      split; auto.
Qed.

Lemma parse_rejects_exactly_malformed_witness :
  returns (parse_iena_packet sample_datagram 1)
  /\ (parse_iena_packet sample_datagram 1 = Returned None <->
      (Z.of_nat (length sample_datagram) < 16 + 4 * 1 + 2
       \/ u16_at sample_datagram (16 + 4 * 1) <> IENA_TRAILER))
  /\ (16 + 4 * 1 + 2 <= Z.of_nat (length sample_datagram) ->
      u16_at sample_datagram (16 + 4 * 1) = IENA_TRAILER ->
      exists pkt, parse_iena_packet sample_datagram 1 = Returned (Some pkt)
                  /\ Z.of_nat (length (pkt_values pkt)) = 1).
Proof. apply parse_rejects_exactly_malformed. lia. Defined.

(** ** Deques *)

Lemma length_deque_append {A} (d : deque A) (x : A) :
  length (d_items (deque_append d x))
  = if (d_maxlen d <? length (d_items d) + 1)%nat
    then length (d_items d) else S (length (d_items d)).
Proof.
  unfold deque_append. cbn [d_items]. rewrite length_app. cbn [length].
  destruct (_ <? _)%nat.
  - rewrite length_drop, length_app. simpl. lia.
  - rewrite length_app. simpl. lia.
Qed.

Lemma length_lastn {A} (n : nat) (l : list A) :
  length (lastn n l) = (length l `min` n)%nat.
Proof. unfold lastn. rewrite length_drop. lia. Qed.

Lemma lastn_nil {A} (n : nat) : lastn n (@nil A) = [].
Proof. done. Qed.

(** A deque that holds the last [maxlen] items of [l] holds, after an
    append of [x], the last [maxlen] items of [l ++ [x]]. *)
Lemma deque_append_lastn {A} (d : deque A) (x : A) (l : list A) :
  d_items d = lastn (d_maxlen d) l ->
  d_items (deque_append d x) = lastn (d_maxlen d) (l ++ [x]).
Proof.
  intros Hd. unfold deque_append. cbn [d_items].
  rewrite length_app, Hd, length_lastn. cbn [length].
  unfold lastn. rewrite length_app. cbn [length].
  destruct (d_maxlen d <? length l `min` d_maxlen d + 1)%nat eqn:E.
  - apply Nat.ltb_lt in E.
    rewrite <- drop_app_le by lia. rewrite drop_drop. f_equal. lia.
  - apply Nat.ltb_ge in E.
    rewrite <- drop_app_le by lia. f_equal. lia.
Qed.

(** ** Dictionaries built by a comprehension *)

Lemma lookup_foldl_insert_const {V} (v : V) (names : list string)
    (m : gmap string V) (name : string) :
  foldl (fun m n => <[n := v]> m) m names !! name
  = if decide (name ∈ names) then Some v else m !! name.
Proof.
  revert m. induction names as [|n names IH]; intros m; cbn [foldl].
  - case_decide as Hin; [by apply elem_of_nil in Hin|done].
  - rewrite IH.
    destruct (decide (name ∈ names)) as [Hin|Hni],
             (decide (name ∈ n :: names)) as [Hin'|Hni']; try done.
    + exfalso. apply Hni'. by right.
    + apply elem_of_cons in Hin' as [->|?]; [|done]. apply lookup_insert_eq.
    + apply lookup_insert_ne. intros ->. apply Hni'. by left.
Qed.

Lemma lookup_new_series (maxlen : nat) (names : list string) (name : string) :
  new_series maxlen names !! name
  = if decide (name ∈ names) then Some (deque_new maxlen) else None.
Proof. unfold new_series. by rewrite lookup_foldl_insert_const, lookup_empty. Qed.

(** ** The locked block of the ingestion loop *)

Lemma append_values_spec (names : list string) (i : nat) (values : list Z)
    (ser : gmap string (deque Z)) :
  NoDup names ->
  (forall name, name ∈ names -> is_Some (ser !! name)) ->
  (i + length names <= length values)%nat ->
  exists ser',
    append_values names i values ser = Returned ser'
    /\ (forall j name, names !! j = Some name ->
          exists d v, ser !! name = Some d /\ values !! (i + j)%nat = Some v
                      /\ ser' !! name = Some (deque_append d v))
    /\ (forall name, name ∉ names -> ser' !! name = ser !! name).
Proof.
  revert i ser. induction names as [|n names IH]; intros i ser Hnd Hin Hlen.
  - exists ser. split; [done|]. split; [|done]. intros j name Hj. done.
  - apply NoDup_cons in Hnd as [Hn Hnd]. simpl in Hlen.
    destruct (Hin n) as [d Hd]; [by left|].
    destruct (lookup_lt_is_Some_2 values i) as [v Hv]; [lia|].
    simpl. rewrite Hd, Hv.
    destruct (IH (S i) (<[n := deque_append d v]> ser)) as (ser' & Hrun & Hup & Hframe);
      [done| |lia|].
    { intros name Hname. destruct (decide (name = n)) as [->|Hne].
      - rewrite lookup_insert_eq. by eexists.
      - rewrite lookup_insert_ne by done. apply Hin. by right. }
    exists ser'. split; [done|]. split.
    + intros [|j] name Hj; simpl in Hj.
      * injection Hj as <-. exists d, v. rewrite Nat.add_0_r.
        repeat split; try done. rewrite Hframe by done. apply lookup_insert_eq.
      * destruct (Hup j name Hj) as (d' & v' & Hd' & Hv' & Hs').
        assert (name <> n).
        { intros ->. apply Hn. by eapply list_elem_of_lookup_2. }
        rewrite lookup_insert_ne in Hd' by done.
        exists d', v'. repeat split; try done.
        by replace (i + S j)%nat with (S i + j)%nat by lia.
    + intros name Hname. apply not_elem_of_cons in Hname as [Hne Hname].
      rewrite Hframe by done. by rewrite lookup_insert_ne.
Qed.

Lemma parse_iena_packet_cases (data : bytes) (N : Z) :
  0 <= N ->
  parse_iena_packet data N = Returned None
  \/ exists p, parse_iena_packet data N = Returned (Some p)
               /\ Z.of_nat (length (pkt_values p)) = N.
Proof.
  intros HN. rewrite parse_iena_packet_eq by done.
  destruct (_ <? _); [by left|]. destruct (_ =? _); [|by left].
  right. eexists. split; [done|]. simpl.
  rewrite length_decode_fields, length_replicate. lia.
Qed.

Section Receiver.
Context {T : Type}.
Implicit Types (st : IenaMulticastReceiver T) (now : T).

Lemma receiver_wf_init (maxlen : nat) (key : Z) (win : T) (names : list string) :
  NoDup names -> receiver_wf (receiver_init_with maxlen key win names).
Proof.
  intros Hnd. unfold receiver_wf, receiver_init_with. cbn.
  repeat split; try done.
  - intros Hin. rewrite lookup_new_series, decide_True by done. by eexists.
  - rewrite lookup_new_series. case_decide; [done|]. by intros [? ?].
  - rewrite lookup_new_series in H. case_decide; [|done]. by injection H as <-.
  - rewrite lookup_new_series in H. case_decide; [|done]. by injection H as <-.
Qed.

Lemma append_sample_spec st now (values : list Z) :
  receiver_wf st ->
  length values = length (param_names st) ->
  exists ser',
    append_sample st now values
    = Returned (mkReceiver (key_filter st) (window st) (param_names st)
                           (num_params st) (deque_append (timestamps st) now)
                           ser' (packet_count st + 1) (running st))
    /\ (forall i name, param_names st !! i = Some name ->
          exists d v, series st !! name = Some d /\ values !! i = Some v
                      /\ ser' !! name = Some (deque_append d v))
    /\ (forall name, name ∉ param_names st -> ser' !! name = series st !! name).
Proof.
  intros (Hnd & Hnum & Hdom & Hlen) Hvals.
  destruct (append_values_spec (param_names st) 0 values (series st))
    as (ser' & Hrun & Hup & Hframe); [done| |lia|].
  { intros name Hname. by apply Hdom. }
  exists ser'. unfold append_sample. rewrite Hrun. cbn [obind].
  split; [done|]. split; [|done].
  intros i name Hi. destruct (Hup i name Hi) as (d & v & ? & ? & ?).
  by exists d, v.
Qed.

Lemma append_sample_wf st st' now (values : list Z) :
  receiver_wf st ->
  length values = length (param_names st) ->
  append_sample st now values = Returned st' ->
  receiver_wf st'.
Proof.
  intros Hwf Hvals Hrun.
  destruct (append_sample_spec st now values Hwf Hvals) as (ser' & Heq & Hup & Hframe).
  rewrite Heq in Hrun. injection Hrun as <-.
  destruct Hwf as (Hnd & Hnum & Hdom & Hlen).
  unfold receiver_wf. cbn [param_names num_params series timestamps].
  repeat split; try done.
  - intros Hin. apply list_elem_of_lookup_1 in Hin as [i Hi].
    destruct (Hup i name Hi) as (d & v & _ & _ & ->). by eexists.
  - intros Hsome. destruct (decide (name ∈ param_names st)) as [|Hni]; [done|].
    rewrite Hframe in Hsome by done. by apply Hdom.
  - destruct (decide (name ∈ param_names st)) as [Hin|Hni].
    + apply list_elem_of_lookup_1 in Hin as [i Hi].
      destruct (Hup i name Hi) as (d0 & v & Hd0 & _ & Hd').
      rewrite Hd' in H. injection H as <-.
      destruct (Hlen name d0 Hd0) as [Hl Hm].
      rewrite !length_deque_append, Hl, Hm. by destruct (_ <? _)%nat.
    + rewrite Hframe in H by done. exfalso. apply Hni, Hdom. by eexists.
  - destruct (decide (name ∈ param_names st)) as [Hin|Hni].
    + apply list_elem_of_lookup_1 in Hin as [i Hi].
      destruct (Hup i name Hi) as (d0 & v & Hd0 & _ & Hd').
      rewrite Hd' in H. injection H as <-.
      by destruct (Hlen name d0 Hd0) as [_ Hm].
    + rewrite Hframe in H by done. exfalso. apply Hni, Hdom. by eexists.
Qed.

Lemma listen_step_dropped st (r : recv_result) now :
  dropped st r -> listen_step st r now = Returned st.
Proof.
  destruct r as [|data ip port]; [done|]. simpl.
  intros [Hp|(p & Hp & Hk)]; rewrite Hp; cbn [obind]; [done|].
  by rewrite (proj2 (Z.eqb_neq _ _) Hk).
Qed.

Lemma listen_step_matched st (data : bytes) (ip : string) (port : Z) now (p : IenaPacket) :
  parse_iena_packet data (num_params st) = Returned (Some p) ->
  pkt_key p = key_filter st ->
  listen_step st (RecvData data ip port) now = append_sample st now (pkt_values p).
Proof.
  intros Hp Hk. simpl. rewrite Hp. cbn [obind]. by rewrite Hk, Z.eqb_refl.
Qed.

Lemma listen_step_wf st (r : recv_result) now :
  receiver_wf st ->
  exists st', listen_step st r now = Returned st' /\ receiver_wf st'
              /\ param_names st' = param_names st.
Proof.
  intros Hwf. destruct r as [|data ip port]; [by exists st|].
  pose proof Hwf as (Hnd & Hnum & Hdom & Hlen).
  destruct (parse_iena_packet_cases data (num_params st)) as [Hp|(p & Hp & Hl)];
    [lia| |].
  - exists st. split; [|done]. apply listen_step_dropped. by left.
  - destruct (decide (pkt_key p = key_filter st)) as [Hk|Hk].
    + rewrite (listen_step_matched _ _ _ _ _ p) by done.
      assert (Hvals : length (pkt_values p) = length (param_names st)) by lia.
      destruct (append_sample_spec st now _ Hwf Hvals) as (ser' & Heq & _).
      eexists. split; [exact Heq|]. split; [|done].
      by eapply append_sample_wf.
    + exists st. split; [|done]. apply listen_step_dropped. right. by exists p.
Qed.

Lemma receiver_run_wf st (ops : list (receiver_op T)) :
  receiver_wf st ->
  exists st', receiver_run st ops = Returned st' /\ receiver_wf st'
              /\ param_names st' = param_names st.
Proof.
  revert st. induction ops as [|op ops IH]; intros st Hwf; [by exists st|].
  assert (Hstep : exists st1, receiver_step st op = Returned st1 /\ receiver_wf st1
                              /\ param_names st1 = param_names st).
  { destruct op as [r now|vars|]; simpl.
    - destruct (running st); [by apply listen_step_wf|by exists st].
    - by exists st.
    - by exists (stop st). }
  destruct Hstep as (st1 & Hs & Hwf1 & Hn1).
  destruct (IH st1 Hwf1) as (st' & Hr & Hwf' & Hn').
  exists st'. simpl. rewrite Hs. cbn [obind].
  split; [done|]. split; [done|]. congruence.
Qed.

(** No operation changes the key filter or the display window. *)
Lemma receiver_step_fixed st st' (op : receiver_op T) :
  receiver_step st op = Returned st' ->
  key_filter st' = key_filter st /\ window st' = window st.
Proof.
  destruct op as [r now|vars|]; cbn [receiver_step].
  - destruct (running st); [|by intros [= <-]].
    destruct r as [|data ip port]; cbn [listen_step]; [by intros [= <-]|].
    destruct (parse_iena_packet data (num_params st)) as [|[p|]]; cbn [obind];
      [done| |by intros [= <-]].
    destruct (negb (pkt_key p =? key_filter st)); [by intros [= <-]|].
    unfold append_sample.
    destruct (append_values _ _ _ _); cbn [obind]; [done|]. by intros [= <-].
  - by intros [= <-].
  - by intros [= <-].
Qed.

Lemma receiver_run_fixed st st' (ops : list (receiver_op T)) :
  receiver_run st ops = Returned st' ->
  key_filter st' = key_filter st /\ window st' = window st.
Proof.
  revert st. induction ops as [|op ops IH]; intros st; cbn [receiver_run].
  - by intros [= <-].
  - destruct (receiver_step st op) as [|st1] eqn:Hs; cbn [obind]; [done|].
    intros Hr. apply receiver_step_fixed in Hs as [Hk Hw].
    apply IH in Hr as [Hk' Hw']. split; congruence.
Qed.

(** The states a receiver built from unique names reaches. *)
Lemma receiver_run_init (maxlen : nat) (key : Z) (win : T) (names : list string)
    (ops : list (receiver_op T)) :
  NoDup names ->
  exists st,
    receiver_run (receiver_init_with maxlen key win names) ops = Returned st
    /\ receiver_wf st /\ param_names st = names
    /\ key_filter st = key /\ window st = win.
Proof.
  intros Hnd.
  destruct (receiver_run_wf _ ops (receiver_wf_init maxlen key win names Hnd))
    as (st & Hrun & Hwf & Hnames).
  destruct (receiver_run_fixed _ _ _ Hrun) as [Hk Hw].
  exists st. split; [done|]. split; [done|]. split; [done|]. by split.
Qed.
End Receiver.

(** ** Boolean masks and the snapshot *)

Lemma mask_select_indices {A B} (p : A -> bool) (ts : list A) (arr : list B)
    (da : A) (db : B) :
  length arr = length ts ->
  mask_select (map p ts) arr
  = map (fun i => nth i arr db)
        (List.filter (fun i => p (nth i ts da)) (seq 0 (length ts))).
Proof.
  revert arr. induction ts as [|t ts IH]; intros [|x arr] Hl; simpl in Hl; try done.
  cbn [map mask_select length seq].
  rewrite <- seq_shift. cbn [List.filter nth].
  rewrite filter_map_swap, (IH arr) by lia.
  destruct (p t); cbn [map nth]; rewrite map_map; done.
Qed.


Lemma masked_series_spec (var_names : list string) (ser : gmap string (deque Z))
    (mask : list bool) (result : gmap string (list Z)) :
  (forall name, name ∈ var_names ->
     exists d, ser !! name = Some d /\ length (d_items d) = length mask) ->
  exists result',
    masked_series var_names ser mask result = Returned result'
    /\ (forall name, name ∈ var_names ->
          exists d, ser !! name = Some d
                    /\ result' !! name = Some (mask_select mask (d_items d)))
    /\ (forall name, name ∉ var_names -> result' !! name = result !! name).
Proof.
  revert result. induction var_names as [|n rest IH]; intros result Hok.
  - exists result. split; [done|]. split; [|done]. by intros name ?%elem_of_nil.
  - destruct (Hok n) as (d & Hd & Hl); [by left|].
    destruct (IH (<[n := mask_select mask (d_items d)]> result))
      as (result' & Hrun & Hin & Hframe).
    { intros name Hname. apply Hok. by right. }
    exists result'. simpl. rewrite Hd. unfold np_mask_index.
    rewrite (proj2 (Nat.eqb_eq _ _) Hl). cbn [obind].
    split; [done|]. split.
    + intros name Hname. destruct (decide (name ∈ rest)) as [Hr|Hr]; [by apply Hin|].
      apply elem_of_cons in Hname as [->|?]; [|done].
      exists d. split; [done|]. rewrite Hframe by done. apply lookup_insert_eq.
    + intros name Hname. apply not_elem_of_cons in Hname as [Hne Hname].
      rewrite Hframe by done. by apply lookup_insert_ne.
Qed.

Lemma masked_series_KeyError (var_names : list string) (ser : gmap string (deque Z))
    (mask : list bool) (result : gmap string (list Z)) (name : string) :
  name ∈ var_names -> ser !! name = None ->
  (forall n d, ser !! n = Some d -> length (d_items d) = length mask) ->
  masked_series var_names ser mask result = Raised KeyError.
Proof.
  intros Hin Hnone Hlen. revert result.
  induction var_names as [|n rest IH]; intros result; [by apply elem_of_nil in Hin|].
  simpl. destruct (ser !! n) as [d|] eqn:Hd; [|done].
  unfold np_mask_index. rewrite (proj2 (Nat.eqb_eq _ _) (Hlen n d Hd)). cbn [obind].
  apply IH. apply elem_of_cons in Hin as [->|?]; [congruence|done].
Qed.

Section Snapshot.
Context {T : Type} `{Clock T}.
Implicit Types (st : IenaMulticastReceiver T).

Lemma get_data_empty st (var_names : list string) :
  d_items (timestamps st) = [] ->
  exists result,
    get_data st var_names = Returned ([], result)
    /\ forall name, name ∈ var_names -> result !! name = Some [].
Proof.
  intros Hts. unfold get_data. rewrite Hts. cbn [last].
  eexists. split; [done|]. intros name Hname.
  by rewrite lookup_foldl_insert_const, decide_True.
Qed.

Lemma get_data_nonempty st (var_names : list string) (latest : T) :
  receiver_wf st ->
  (forall name, name ∈ var_names -> name ∈ param_names st) ->
  last (d_items (timestamps st)) = Some latest ->
  let ts := d_items (timestamps st) in
  let mask := map (fun t => time_geb t (time_sub latest (window st))) ts in
  exists result,
    get_data st var_names
    = Returned (map (fun t => time_sub t latest) (mask_select mask ts), result)
    /\ forall name, name ∈ var_names ->
         exists d, series st !! name = Some d
                   /\ length (d_items d) = length ts
                   /\ result !! name = Some (mask_select mask (d_items d)).
Proof.
  intros (Hnd & Hnum & Hdom & Hlen) Hcfg Hlast ts mask.
  assert (Hok : forall name, name ∈ var_names ->
            exists d, series st !! name = Some d /\ length (d_items d) = length mask).
  { intros name Hname. destruct (proj1 (Hdom name) (Hcfg name Hname)) as [d Hd].
    exists d. split; [done|]. unfold mask. rewrite length_map.
    by destruct (Hlen name d Hd). }
  destruct (masked_series_spec var_names (series st) mask ∅ Hok)
    as (result & Hrun & Hin & _).
  exists result. unfold get_data. rewrite Hlast. fold ts. fold mask.
  rewrite Hrun. cbn [obind]. split; [done|].
  intros name Hname. destruct (Hin name Hname) as (d & Hd & Hr).
  exists d. repeat split; try done. by destruct (Hlen name d Hd).
Qed.

(** The window of a snapshot, on a state within the invariant. *)
Lemma snapshot_window_wf st (var_names : list string) :
  receiver_wf st ->
  (forall name, name ∈ var_names -> name ∈ param_names st) ->
  let ts := d_items (timestamps st) in
  (ts = [] ->
     exists result,
       get_data st var_names = Returned ([], result)
       /\ forall name, name ∈ var_names -> result !! name = Some [])
  /\ (forall latest, last ts = Some latest ->
        let I := window_indices ts latest (window st) in
        exists result,
          get_data st var_names
          = Returned (map (fun i => time_sub (nth i ts latest) latest) I, result)
          /\ forall name, name ∈ var_names ->
               exists d, series st !! name = Some d
                         /\ result !! name
                            = Some (map (fun i => nth i (d_items d) 0) I)).
Proof.
  intros Hwf Hcfg ts. split; [by apply get_data_empty|].
  intros latest Hlast I.
  destruct (get_data_nonempty st var_names latest Hwf Hcfg Hlast)
    as (result & Hrun & Hres).
  exists result. split.
  - rewrite Hrun. do 2 f_equal. fold ts.
    rewrite (mask_select_indices _ ts ts latest latest) by done.
    by rewrite map_map.
  - intros name Hname. destruct (Hres name Hname) as (d & Hd & Hl & Hr).
    exists d. split; [done|]. rewrite Hr. f_equal.
    exact (mask_select_indices _ ts (d_items d) latest 0 Hl).
Qed.

(** A requested name that is not configured, on a state within the
    invariant. *)
Lemma snapshot_unconfigured_name_wf st (var_names : list string) (name : string) :
  receiver_wf st ->
  name ∈ var_names ->
  name ∉ param_names st ->
  (d_items (timestamps st) <> [] -> get_data st var_names = Raised KeyError)
  /\ (d_items (timestamps st) = [] ->
        exists result, get_data st var_names = Returned ([], result)
                       /\ result !! name = Some []).
Proof.
  intros (Hnd & Hnum & Hdom & Hlen) Hin Hncfg. split.
  - intros Hne. apply last_is_Some in Hne as [latest Hlast].
    unfold get_data. rewrite Hlast.
    rewrite (masked_series_KeyError _ _ _ _ name); try done.
    + destruct (series st !! name) as [d|] eqn:Hd; [|done].
      exfalso. apply Hncfg, Hdom. by eexists.
    + intros n d Hd. rewrite length_map. by destruct (Hlen n d Hd).
  - intros Hempty. destruct (get_data_empty st var_names Hempty) as (result & Hrun & Hres).
    exists result. split; [done|]. by apply Hres.
Qed.

(** C3, as amended: a receiver built from unique parameter names reaches a
    state after any operations, and in that state, for requested names that
    are configured: when the timestamps buffer is not empty, [get_data]
    returns the relative timestamps [timestamps[i] - latest] and, for each
    requested name, the values of that name's buffer, both at the positions
    [i] with [timestamps[i] >= latest - window], where [latest] is the last
    stored timestamp; when it is empty, [get_data] returns empty sequences
    for every requested name. *)
Theorem get_data_window (maxlen : nat) (key : Z) (win : T) (names : list string)
    (ops : list (receiver_op T)) (var_names : list string) :
  NoDup names ->
  (forall name, name ∈ var_names -> name ∈ names) ->
  exists st,
    receiver_run (receiver_init_with maxlen key win names) ops = Returned st
    /\ (d_items (timestamps st) = [] ->
          exists result,
            get_data st var_names = Returned ([], result)
            /\ forall name, name ∈ var_names -> result !! name = Some [])
    /\ (forall latest, last (d_items (timestamps st)) = Some latest ->
          let ts := d_items (timestamps st) in
          let I := window_indices ts latest win in
          exists result,
            get_data st var_names
            = Returned (map (fun i => time_sub (nth i ts latest) latest) I, result)
            /\ forall name, name ∈ var_names ->
                 exists d, series st !! name = Some d
                           /\ result !! name
                              = Some (map (fun i => nth i (d_items d) 0) I)).
Proof.
  intros Hnd Hcfg.
  destruct (receiver_run_init maxlen key win names ops Hnd)
    as (st & Hrun & Hwf & Hnames & _ & Hwin).
  exists st. split; [done|]. rewrite <- Hnames in Hcfg. rewrite <- Hwin.
  exact (snapshot_window_wf st var_names Hwf Hcfg).
Qed.

(** C10, as amended: on a receiver built from unique parameter names, after
    any operations, for a requested name that is not configured: [get_data]
    raises [KeyError] once the buffer holds a sample, and returns an empty
    sequence for that name while the buffer is empty. *)
Theorem get_data_unconfigured_name (maxlen : nat) (key : Z) (win : T)
    (names : list string) (ops : list (receiver_op T))
    (var_names : list string) (name : string) :
  NoDup names ->
  name ∈ var_names ->
  name ∉ names ->
  exists st,
    receiver_run (receiver_init_with maxlen key win names) ops = Returned st
    /\ (d_items (timestamps st) <> [] -> get_data st var_names = Raised KeyError)
    /\ (d_items (timestamps st) = [] ->
          exists result, get_data st var_names = Returned ([], result)
                         /\ result !! name = Some []).
Proof.
  intros Hnd Hin Hncfg.
  destruct (receiver_run_init maxlen key win names ops Hnd)
    as (st & Hrun & Hwf & Hnames & _).
  exists st. split; [done|]. rewrite <- Hnames in Hncfg.
  exact (snapshot_unconfigured_name_wf st var_names name Hwf Hin Hncfg).
Qed.

End Snapshot.

Section Ingestion.
Context {T : Type}.
Implicit Types (st : IenaMulticastReceiver T) (now : T).

Lemma receiver_run_dropped st (rs : list (recv_result * T)) :
  Forall (fun x => dropped st x.1) rs ->
  receiver_run st (map (fun x => OpReceive x.1 x.2) rs) = Returned st.
Proof.
  induction 1 as [|[r now] rs Hd _ IH]; [done|].
  cbn [map receiver_run receiver_step fst snd].
  destruct (running st); [|done].
  by rewrite listen_step_dropped.
Qed.

(** *** The locked block for any configured names *)

Lemma values_of_name_nil (name : string) (values : list Z) :
  values_of_name name [] values = [].
Proof. done. Qed.

Lemma values_of_name_cons (name n : string) (names : list string) (v : Z)
    (values : list Z) :
  values_of_name name (n :: names) (v :: values)
  = (if decide (n = name) then [v] else []) ++ values_of_name name names values.
Proof.
  unfold values_of_name. cbn [zip zip_with List.filter fst].
  destruct (decide (n = name)) as [Heq|Hne].
  - by rewrite bool_decide_eq_true_2.
  - by rewrite bool_decide_eq_false_2.
Qed.

Lemma values_of_name_not_in (name : string) (names : list string) (values : list Z) :
  name ∉ names -> values_of_name name names values = [].
Proof.
  revert values. induction names as [|n names IH]; intros values Hni; [done|].
  apply not_elem_of_cons in Hni as [Hne Hni].
  destruct values as [|v values]; [done|].
  rewrite values_of_name_cons, decide_False by done. by apply IH.
Qed.

(** A name that stands at one position only receives the value of that
    position. *)
Lemma values_of_name_unique (name : string) (names : list string) (values : list Z)
    (i : nat) (v : Z) :
  names !! i = Some name ->
  (forall j, names !! j = Some name -> j = i) ->
  values !! i = Some v ->
  values_of_name name names values = [v].
Proof.
  revert values i. induction names as [|n names IH]; intros values i Hi Huniq Hv; [done|].
  destruct values as [|w values]; [done|].
  rewrite values_of_name_cons. destruct i as [|i]; cbn in Hi, Hv.
  - injection Hi as ->. injection Hv as ->. rewrite decide_True by done.
    rewrite values_of_name_not_in; [done|].
    intros Hin. apply list_elem_of_lookup_1 in Hin as [j Hj].
    specialize (Huniq (S j) Hj). lia.
  - rewrite decide_False.
    2:{ intros ->. specialize (Huniq 0%nat eq_refl). lia. }
    apply (IH values i Hi); [|done].
    intros j Hj. specialize (Huniq (S j) Hj). lia.
Qed.

Lemma lastn_all {A} (n : nat) (l : list A) : (length l <= n)%nat -> lastn n l = l.
Proof.
  intros Hl. unfold lastn. by replace (length l - n)%nat with 0%nat by lia.
Qed.

(** Appending several items in turn keeps the last [maxlen] of all. *)
Lemma deque_extend_lastn {A} (d : deque A) (xs l : list A) :
  d_items d = lastn (d_maxlen d) l ->
  d_items (foldl deque_append d xs) = lastn (d_maxlen d) (l ++ xs)
  /\ d_maxlen (foldl deque_append d xs) = d_maxlen d.
Proof.
  revert d l. induction xs as [|x xs IH]; intros d l Hd; cbn [foldl].
  - by rewrite app_nil_r.
  - destruct (IH (deque_append d x) (l ++ [x])) as [Hi Hm].
    { change (d_maxlen (deque_append d x)) with (d_maxlen d).
      by apply deque_append_lastn. }
    rewrite Hi, Hm. change (d_maxlen (deque_append d x)) with (d_maxlen d).
    by rewrite <- app_assoc.
Qed.

(** The loop over the configured names, whether a name occurs once or more
    often: every buffer is extended by the values of its name. *)
Lemma append_values_any (names : list string) (i : nat) (values : list Z)
    (ser : gmap string (deque Z)) :
  (forall name, name ∈ names -> is_Some (ser !! name)) ->
  (i + length names <= length values)%nat ->
  exists ser',
    append_values names i values ser = Returned ser'
    /\ forall name,
         ser' !! name
         = (fun d => foldl deque_append d (values_of_name name names (drop i values)))
             <$> ser !! name.
Proof.
  revert i ser. induction names as [|n names IH]; intros i ser Hin Hlen.
  - exists ser. split; [done|]. intros name. rewrite values_of_name_nil.
    by destruct (ser !! name).
  - cbn [length] in Hlen. destruct (Hin n) as [d Hd]; [by left|].
    destruct (lookup_lt_is_Some_2 values i) as [v Hv]; [lia|].
    destruct (IH (S i) (<[n := deque_append d v]> ser)) as (ser' & Hrun & Hser);
      [|lia|].
    { intros name Hname. destruct (decide (name = n)) as [->|Hne].
      - rewrite lookup_insert_eq. by eexists.
      - rewrite lookup_insert_ne by done. apply Hin. by right. }
    exists ser'. cbn [append_values]. rewrite Hd, Hv. split; [done|].
    intros name. rewrite Hser, (drop_S _ _ _ Hv), values_of_name_cons.
    destruct (decide (n = name)) as [->|Hne].
    + by rewrite lookup_insert_eq, Hd.
    + by rewrite lookup_insert_ne by done.
Qed.

Lemma receiver_ok_init (maxlen : nat) (key : Z) (win : T) (names : list string) :
  receiver_ok maxlen names (receiver_init_with maxlen key win names).
Proof.
  unfold receiver_ok, receiver_init_with.
  cbn [param_names num_params timestamps series deque_new d_items d_maxlen length].
  split; [done|]. split; [done|]. split; [done|]. split; [lia|]. split.
  - intros name. rewrite lookup_new_series.
    case_decide; split; try done; try (by eexists); by intros [? ?].
  - intros name d. rewrite lookup_new_series. case_decide; [|done].
    intros [= <-]. cbn. split; [done|lia].
Qed.

Lemma append_sample_ok (maxlen : nat) (names : list string) st now (values : list Z) :
  receiver_ok maxlen names st ->
  length values = length names ->
  exists st',
    append_sample st now values = Returned st'
    /\ receiver_ok maxlen names st'
    /\ packet_count st' = packet_count st + 1
    /\ d_items (timestamps st') = lastn maxlen (d_items (timestamps st) ++ [now])
    /\ forall name, name ∈ names ->
         exists d d', series st !! name = Some d /\ series st' !! name = Some d'
                      /\ d_items d'
                         = lastn maxlen (d_items d ++ values_of_name name names values).
Proof.
  intros (Hnames & Hnum & Hmax & Hlen & Hdom & Hser) Hvals.
  destruct (append_values_any (param_names st) 0 values (series st))
    as (ser' & Hrun & Hser0).
  { intros name Hname. apply Hdom. by rewrite <- Hnames. }
  { rewrite Hnames. lia. }
  assert (Hser' : forall name,
            ser' !! name
            = (fun d => foldl deque_append d (values_of_name name names values))
                <$> series st !! name).
  { intros name. by rewrite Hser0, Hnames, drop_0. }
  clear Hser0.
  assert (Hts : d_items (deque_append (timestamps st) now)
                = lastn maxlen (d_items (timestamps st) ++ [now])).
  { rewrite <- Hmax at 1. apply deque_append_lastn.
    rewrite Hmax. symmetry. by apply lastn_all. }
  assert (Hext : forall name d,
            series st !! name = Some d ->
            d_items (foldl deque_append d (values_of_name name names values))
            = lastn maxlen (d_items d ++ values_of_name name names values)
            /\ d_maxlen (foldl deque_append d (values_of_name name names values))
               = maxlen).
  { intros name d Hd. destruct (Hser name d Hd) as [Hm Hl].
    destruct (deque_extend_lastn d (values_of_name name names values) (d_items d))
      as [Hi Hm'].
    { rewrite Hm. symmetry. by apply lastn_all. }
    rewrite Hi, Hm', Hm. done. }
  unfold append_sample. rewrite Hrun. cbn [obind]. eexists. split; [done|].
  split; [|split; [done|split; [exact Hts|]]].
  - unfold receiver_ok.
    cbn [param_names num_params timestamps series].
    split; [done|]. split; [done|]. split; [done|]. split.
    { rewrite Hts, length_lastn. lia. }
    split.
    + intros name. rewrite Hser', fmap_is_Some. apply Hdom.
    + intros name d'. rewrite Hser'. intros Hd'.
      apply fmap_Some in Hd' as (d & Hd & ->). cbn beta.
      destruct (Hext name d Hd) as [Hi Hm]. split; [done|].
      rewrite Hi, length_lastn. lia.
  - intros name Hname. cbn [series].
    destruct (proj1 (Hdom name) Hname) as [d Hd].
    exists d. eexists. split; [done|]. rewrite Hser', Hd. cbn [fmap option_fmap option_map].
    split; [done|]. by destruct (Hext name d Hd).
Qed.

(** One turn of the ingestion loop, for any configured names: the turn
    returns, and it either leaves the state as it is or runs the locked
    block on the values of a packet with the receiver's key. *)
Lemma listen_step_ok (maxlen : nat) (names : list string) st (r : recv_result) now :
  receiver_ok maxlen names st ->
  exists st', listen_step st r now = Returned st' /\ receiver_ok maxlen names st'.
Proof.
  intros Hok. pose proof Hok as (Hnames & Hnum & _).
  destruct r as [|data ip port]; [by exists st|].
  destruct (parse_iena_packet_cases data (num_params st)) as [Hp|(p & Hp & Hl)];
    [lia| |].
  - exists st. split; [|done]. apply listen_step_dropped. by left.
  - destruct (decide (pkt_key p = key_filter st)) as [Hk|Hk].
    + rewrite (listen_step_matched _ _ _ _ _ p) by done.
      destruct (append_sample_ok maxlen names st now (pkt_values p) Hok)
        as (st' & Hrun & Hok' & _); [lia|].
      by exists st'.
    + exists st. split; [|done]. apply listen_step_dropped. right. by exists p.
Qed.

Lemma receiver_run_ok (maxlen : nat) (names : list string) st
    (ops : list (receiver_op T)) :
  receiver_ok maxlen names st ->
  exists st', receiver_run st ops = Returned st' /\ receiver_ok maxlen names st'.
Proof.
  revert st. induction ops as [|op ops IH]; intros st Hok; [by exists st|].
  assert (Hstep : exists st1, receiver_step st op = Returned st1
                              /\ receiver_ok maxlen names st1).
  { destruct op as [r now|vars|]; cbn [receiver_step].
    - destruct (running st); [by apply listen_step_ok|by exists st].
    - by exists st.
    - by exists (stop st). }
  destruct Hstep as (st1 & Hs & Hok1).
  destruct (IH st1 Hok1) as (st' & Hr & Hok').
  exists st'. cbn [receiver_run]. rewrite Hs. by cbn [obind].
Qed.

(** C6: a receiver built from any names reaches a state after any
    operations, and in that state: a datagram that is malformed or carries
    another key than the receiver's [key_filter] leaves the receiver as it
    was, so a stream of such datagrams appends no sample and leaves
    [packet_count] unchanged; every other datagram decodes with the
    receiver's key, and such a datagram adds one to [packet_count], puts
    the reading of the clock at the end of the timestamps, and puts at the
    end of every configured parameter's buffer the values of that name,
    each buffer keeping its last [maxlen] entries; a name configured at one
    position [i] only receives exactly the [i]-th value. *)
Theorem key_filtering (maxlen : nat) (key : Z) (win : T) (names : list string)
    (ops : list (receiver_op T)) (data : bytes) (ip : string) (port : Z) now :
  exists st,
    receiver_run (receiver_init_with maxlen key win names) ops = Returned st
    /\ (dropped st (RecvData data ip port) ->
          listen_step st (RecvData data ip port) now = Returned st)
    /\ (forall rs : list (recv_result * T),
          Forall (fun x => dropped st x.1) rs ->
          receiver_run st (map (fun x => OpReceive x.1 x.2) rs) = Returned st)
    /\ (dropped st (RecvData data ip port)
        \/ exists p, parse_iena_packet data (num_params st) = Returned (Some p)
                     /\ pkt_key p = key_filter st)
    /\ (forall p,
          parse_iena_packet data (num_params st) = Returned (Some p) ->
          pkt_key p = key_filter st ->
          exists st',
            listen_step st (RecvData data ip port) now = Returned st'
            /\ packet_count st' = packet_count st + 1
            /\ d_items (timestamps st')
               = lastn maxlen (d_items (timestamps st) ++ [now])
            /\ (forall name, name ∈ names ->
                  exists d d',
                    series st !! name = Some d /\ series st' !! name = Some d'
                    /\ d_items d'
                       = lastn maxlen
                           (d_items d ++ values_of_name name names (pkt_values p)))
            /\ (forall i name,
                  names !! i = Some name ->
                  (forall j, names !! j = Some name -> j = i) ->
                  exists d d' v,
                    series st !! name = Some d /\ series st' !! name = Some d'
                    /\ pkt_values p !! i = Some v
                    /\ d_items d' = lastn maxlen (d_items d ++ [v]))).
Proof.
  destruct (receiver_run_ok maxlen names _ ops (receiver_ok_init maxlen key win names))
    as (st & Hrun & Hok).
  exists st. split; [done|]. split; [apply listen_step_dropped|].
  split; [apply receiver_run_dropped|].
  pose proof Hok as (Hnames & Hnum & _).
  split.
  { destruct (parse_iena_packet_cases data (num_params st)) as [Hn|(p & Hp & _)];
      [lia|by left; left|].
    destruct (decide (pkt_key p = key_filter st)) as [Hk|Hk].
    - right. by exists p.
    - left. right. by exists p. }
  intros p Hp Hk. rewrite (listen_step_matched _ _ _ _ _ p) by done.
  destruct (parse_iena_packet_cases data (num_params st)) as [Hn|(p' & Hp' & Hl)];
    [lia|congruence|].
  assert (p' = p) as -> by congruence.
  assert (Hvals : length (pkt_values p) = length names) by lia.
  destruct (append_sample_ok maxlen names st now _ Hok Hvals)
    as (st' & Heq & _ & Hcount & Hts & Hser).
  exists st'. split; [done|]. split; [done|]. split; [done|]. split; [done|].
  intros i name Hi Huniq.
  destruct (Hser name) as (d & d' & Hd & Hd' & Hitems);
    [by eapply list_elem_of_lookup_2|].
  destruct (lookup_lt_is_Some_2 (pkt_values p) i) as [v Hv].
  { rewrite Hvals. by eapply lookup_lt_Some. }
  exists d, d', v. split; [done|]. split; [done|]. split; [done|].
  by rewrite Hitems, (values_of_name_unique name names _ i v).
Qed.

Lemma append_samples_lastn (cap : nat) (names : list string) st
    (done samples : list (T * list Z)) :
  Forall (fun s => length s.2 = length names) samples ->
  receiver_wf st ->
  param_names st = names ->
  d_maxlen (timestamps st) = cap ->
  d_items (timestamps st) = lastn cap (map fst done) ->
  (forall i name d, names !! i = Some name -> series st !! name = Some d ->
     d_items d = lastn cap (map (fun s => nth i s.2 0) done)) ->
  exists st',
    append_samples st samples = Returned st'
    /\ packet_count st' = packet_count st + Z.of_nat (length samples)
    /\ d_items (timestamps st') = lastn cap (map fst (done ++ samples))
    /\ forall i name, names !! i = Some name ->
         exists d, series st' !! name = Some d
                   /\ d_items d = lastn cap (map (fun s => nth i s.2 0) (done ++ samples)).
Proof.
  intros Hall. revert st done.
  induction samples as [|[now values] rest IH]; intros st done Hwf Hnames Hcap Hts Hser.
  - exists st. rewrite app_nil_r. cbn [append_samples length].
    split; [done|]. split; [lia|]. split; [done|].
    intros i name Hi. destruct Hwf as (_ & _ & Hdom & _).
    destruct (proj1 (Hdom name)) as [d Hd].
    { rewrite Hnames. by eapply list_elem_of_lookup_2. }
    exists d. split; [done|]. by eapply Hser.
  - apply Forall_cons in Hall as [Hvals Hall]. cbn [snd] in Hvals.
    rewrite <- Hnames in Hvals.
    destruct (append_sample_spec st now values Hwf Hvals) as (ser' & Heq & Hup & Hframe).
    pose proof (append_sample_wf _ _ _ _ Hwf Hvals Heq) as Hwf1.
    set (st1 := mkReceiver _ _ _ _ _ _ _ _) in *.
    destruct (IH Hall st1 (done ++ [(now, values)]) Hwf1)
      as (st' & Hrun & Hcount & Hts' & Hser').
    + done.
    + done.
    + cbn [st1 timestamps]. rewrite map_app. cbn [map fst].
      rewrite <- Hcap. apply deque_append_lastn. by rewrite Hcap.
    + cbn [st1 series]. intros i name d Hi Hd. rewrite <- Hnames in Hi.
      destruct (Hup i name Hi) as (d0 & v & Hd0 & Hv & Hd1).
      rewrite Hd1 in Hd. injection Hd as <-.
      rewrite map_app. cbn [map snd].
      rewrite (nth_lookup_Some _ _ _ _ Hv).
      destruct Hwf as (_ & _ & _ & Hlen). destruct (Hlen name d0 Hd0) as [_ Hm].
      rewrite <- Hcap, <- Hm. apply deque_append_lastn.
      rewrite Hm, Hcap. rewrite Hnames in Hi. by eapply Hser.
    + exists st'. cbn [append_samples]. rewrite Heq. cbn [obind].
      rewrite <- app_assoc in Hts', Hser'. cbn [app] in Hts', Hser'.
      split; [done|]. split; [|by split].
      rewrite Hcount. cbn [st1 packet_count length]. lia.
Qed.

(** C4, as amended: a receiver of capacity [cap], built from unique
    parameter names, that was fed any list of samples holds, in the
    timestamps buffer and in the buffer of every configured parameter at
    once, the last [cap] entries fed, in the order fed; when more than [cap]
    samples were fed every buffer holds exactly [cap] entries.  The display
    window [win] takes no part in it. *)
Theorem capacity_eviction (cap : nat) (key : Z) (win : T) (names : list string)
    (samples : list (T * list Z)) :
  NoDup names ->
  Forall (fun s => length s.2 = length names) samples ->
  exists st,
    append_samples (receiver_init_with cap key win names) samples = Returned st
    /\ d_items (timestamps st) = lastn cap (map fst samples)
    /\ (forall i name, names !! i = Some name ->
          exists d, series st !! name = Some d
                    /\ d_items d = lastn cap (map (fun s => nth i s.2 0) samples))
    /\ ((cap < length samples)%nat ->
          length (d_items (timestamps st)) = cap
          /\ forall name, name ∈ names ->
               exists d, series st !! name = Some d /\ length (d_items d) = cap).
Proof.
  intros Hnd Hall.
  destruct (append_samples_lastn cap names (receiver_init_with cap key win names)
              [] samples)
    as (st & Hrun & _ & Hts & Hser); try done.
  - by apply receiver_wf_init.
  - cbn [receiver_init_with series]. intros i name d _ Hd.
    rewrite lookup_new_series in Hd. case_decide; [|done]. by injection Hd as <-.
  - cbn [app] in Hts, Hser.
    exists st. split; [done|]. split; [done|]. split; [done|].
    intros Hmore. split.
    + rewrite Hts, length_lastn, length_map. lia.
    + intros name Hname. apply list_elem_of_lookup_1 in Hname as [i Hi].
      destruct (Hser i name Hi) as (d & Hd & Hitems).
      exists d. split; [done|]. rewrite Hitems, length_lastn, length_map. lia.
Qed.
End Ingestion.

(** ** Stream discovery *)

Section Discovery.
Context {T : Type}.
Implicit Types (streams : gmap (Z * string) (StreamInfo T)) (ident : Z * string).

Lemma lookup_record_stream streams ident (now : T) ident' :
  record_stream streams ident now !! ident'
  = if decide (ident' = ident)
    then Some (match streams !! ident with
               | None => mkInfo 1 now now
               | Some r => mkInfo (info_count r + 1) (info_first r) now
               end)
    else streams !! ident'.
Proof.
  unfold record_stream. case_decide as Hid.
  - subst ident'. rewrite !lookup_alter_eq.
    destruct (streams !! ident) as [r|] eqn:Hr.
    + by rewrite Hr.
    + by rewrite lookup_insert_eq.
  - rewrite !lookup_alter_ne by done.
    destruct (streams !! ident); [done|]. by rewrite lookup_insert_ne.
Qed.

Lemma stream_record_snoc (times : list T) (now : T) :
  stream_record (times ++ [now])
  = Some (match stream_record times with
          | None => mkInfo 1 now now
          | Some r => mkInfo (info_count r + 1) (info_first r) now
          end).
Proof.
  destruct times as [|t0 times]; [done|].
  cbn [stream_record app]. f_equal.
  change (t0 :: times ++ [now]) with ((t0 :: times) ++ [now]).
  rewrite last_last, length_app. cbn [info_count info_first length]. f_equal. lia.
Qed.

Lemma arrivals_snoc (N : Z) ident (turns : list (turn T)) (t : turn T) :
  arrivals N ident (turns ++ [t])
  = arrivals N ident turns
    ++ (if decodes_to N ident (turn_recv t) then [turn_now t] else []).
Proof.
  unfold arrivals. rewrite List.filter_app, map_app. cbn [List.filter].
  by destruct (decodes_to N ident (turn_recv t)).
Qed.

(** One turn of the loop keeps the mapping equal to the records of the
    turns processed so far. *)
Lemma discover_body_spec (N : Z) streams (done : list (turn T)) (t : turn T) :
  0 <= N ->
  (forall ident, streams !! ident = stream_record (arrivals N ident done)) ->
  exists streams',
    discover_body N streams t = Returned streams'
    /\ forall ident, streams' !! ident = stream_record (arrivals N ident (done ++ [t])).
Proof.
  intros HN Hrep. unfold discover_body.
  destruct (turn_recv t) as [|data ip port] eqn:Hrecv.
  - exists streams. split; [done|]. intros ident.
    rewrite arrivals_snoc, Hrecv. cbn [decodes_to]. by rewrite app_nil_r.
  - destruct (parse_iena_packet_cases data N HN) as [Hp|(p & Hp & _)]; rewrite Hp;
      cbn [obind].
    + exists streams. split; [done|]. intros ident.
      rewrite arrivals_snoc, Hrecv. cbn [decodes_to]. rewrite Hp.
      by rewrite app_nil_r.
    + eexists. split; [done|]. intros ident.
      rewrite arrivals_snoc, Hrecv. cbn [decodes_to]. rewrite Hp.
      rewrite lookup_record_stream.
      destruct (decide (ident = (pkt_key p, ip))) as [->|Hne].
      * rewrite bool_decide_eq_true_2 by done.
        by rewrite stream_record_snoc, Hrep.
      * rewrite bool_decide_eq_false_2 by congruence.
        by rewrite app_nil_r.
Qed.

Lemma discover_turns_spec (N : Z) streams (done turns : list (turn T)) :
  0 <= N ->
  (forall ident, streams !! ident = stream_record (arrivals N ident done)) ->
  exists streams',
    discover_turns N streams turns = Returned streams'
    /\ forall ident, streams' !! ident = stream_record (arrivals N ident (done ++ turns)).
Proof.
  intros HN. revert streams done.
  induction turns as [|t turns IH]; intros streams done Hrep.
  - exists streams. rewrite app_nil_r. by split.
  - destruct (discover_body_spec N streams done t HN Hrep) as (s1 & Hb & Hrep1).
    destruct (IH s1 (done ++ [t]) Hrep1) as (s' & Hrun & Hrep').
    exists s'. cbn [discover_turns]. rewrite Hb. cbn [obind].
    split; [done|]. intros ident. rewrite Hrep'. by rewrite <- app_assoc.
Qed.

Lemma discover_body_returns (N : Z) streams (t : turn T) :
  0 <= N -> returns (discover_body N streams t).
Proof.
  intros HN. unfold discover_body. destruct (turn_recv t) as [|data ip port].
  - by exists streams.
  - destruct (parse_iena_packet_cases data N HN) as [Hp|(p & Hp & _)]; rewrite Hp;
      cbn [obind]; by eexists.
Qed.

Context `{Clock T}.

(** When the loop condition holds for [n] turns from the [k]-th on and
    fails at the next, the loop returns on any fuel above [n], with the
    mapping the body builds over these [n] turns. *)
Lemma discover_loop_exact (N : Z) (env : nat -> turn T) (deadline : T) (n : nat) :
  0 <= N ->
  forall (k : nat) streams (fuel : nat),
    (forall j, (j < n)%nat -> time_ltb (turn_check (env (k + j)%nat)) deadline = true) ->
    time_ltb (turn_check (env (k + n)%nat)) deadline = false ->
    (n < fuel)%nat ->
    exists streams',
      discover_loop fuel env N deadline k streams = Some (Returned streams')
      /\ discover_turns N streams (map env (seq k n)) = Returned streams'.
Proof.
  intros HN. induction n as [|n IH]; intros k streams fuel Hlt Hge Hfuel;
    (destruct fuel as [|fuel]; [lia|]); cbn [discover_loop].
  - rewrite Nat.add_0_r in Hge. rewrite Hge. by exists streams.
  - pose proof (Hlt 0%nat ltac:(lia)) as H0. rewrite Nat.add_0_r in H0. rewrite H0.
    destruct (discover_body_returns N streams (env k) HN) as (s1 & Hb).
    rewrite Hb.
    destruct (IH (S k) s1 fuel) as (s' & Hloop & Hturns); [| |lia|].
    + intros j Hj. replace (S k + j)%nat with (k + S j)%nat by lia. apply Hlt. lia.
    + by replace (S k + n)%nat with (k + S n)%nat by lia.
    + exists s'. split; [done|].
      cbn [seq map discover_turns]. rewrite Hb. done.
Qed.

(** While the loop condition holds, the loop has not returned: on fuel for
    no more turns than those before the deadline it is still running. *)
Lemma discover_loop_running (N : Z) (env : nat -> turn T) (deadline : T) :
  0 <= N ->
  forall (fuel n k : nat) streams,
    (forall j, (j < n)%nat -> time_ltb (turn_check (env (k + j)%nat)) deadline = true) ->
    (fuel <= n)%nat ->
    discover_loop fuel env N deadline k streams = None.
Proof.
  intros HN. induction fuel as [|fuel IH]; intros n k streams Hlt Hfuel; [done|].
  cbn [discover_loop].
  pose proof (Hlt 0%nat ltac:(lia)) as H0. rewrite Nat.add_0_r in H0. rewrite H0.
  destruct (discover_body_returns N streams (env k) HN) as (s1 & Hb). rewrite Hb.
  apply (IH (n - 1)%nat); [|lia].
  intros j Hj. replace (S k + j)%nat with (k + S j)%nat by lia. apply Hlt. lia.
Qed.

(** The first turn at which a decidable condition fails. *)
Lemma first_failing_turn (P : nat -> bool) (K : nat) :
  P K = false ->
  exists n, (n <= K)%nat /\ P n = false /\ forall j, (j < n)%nat -> P j = true.
Proof.
  intros HK.
  assert (G : forall m,
            (exists n, (n < m)%nat /\ P n = false /\ forall j, (j < n)%nat -> P j = true)
            \/ (forall j, (j < m)%nat -> P j = true)).
  { induction m as [|m [(n & Hn & Hf & Hb)|Hall]].
    - right. intros j Hj. lia.
    - left. exists n. split; [lia|]. by split.
    - destruct (P m) eqn:Em.
      + right. intros j Hj. destruct (decide (j = m)) as [->|]; [done|].
        apply Hall. lia.
      + left. exists m. split; [lia|]. by split. }
  destruct (G (S K)) as [(n & Hn & Hf & Hb)|Hall].
  - exists n. split; [lia|]. by split.
  - rewrite Hall in HK by lia. done.
Qed.
End Discovery.

Section DiscoveryClaims.
Context {T : Type} `{Clock T}.

(** C7: when [n] turns of the loop run before the deadline, the mapping
    [discover_streams] returns has, for every pair of a key and a source
    address, a record exactly when one of the [n] datagrams decodes to that
    pair; its count is the number of those datagrams, [first] the arrival
    time of the first and [last] that of the last of them.  Timeouts and
    datagrams that do not decode add and change nothing. *)
Theorem discover_streams_aggregates (start : T) (env : nat -> turn T)
    (duration : T) (N : Z) (n : nat) :
  0 <= N ->
  (forall j, (j < n)%nat ->
     time_ltb (turn_check (env j)) (time_add start duration) = true) ->
  time_ltb (turn_check (env n)) (time_add start duration) = false ->
  exists streams,
    discover_streams (S n) start env duration N = Some (Returned streams)
    /\ forall ident,
         streams !! ident = stream_record (arrivals N ident (map env (seq 0 n))).
Proof.
  intros HN Hlt Hge. unfold discover_streams.
  destruct (discover_loop_exact N env (time_add start duration) n HN 0 ∅ (S n))
    as (streams & Hloop & Hturns); [done|done|lia|].
  exists streams. split; [done|].
  destruct (discover_turns_spec N (∅ : gmap (Z * string) (StreamInfo T)) []
              (map env (seq 0 n)) HN) as (s' & Hrun & Hrep).
  { intros ident. by rewrite lookup_empty. }
  rewrite Hturns in Hrun. injection Hrun as <-. exact Hrep.
Qed.

(** C8: when some reading of the monotonic clock in the loop condition is
    not below the deadline [start + duration], there is a first turn [n]
    with such a reading: the readings of the turns before it are below the
    deadline and its own is not.  [discover_streams] then takes exactly
    these [n] turns, whatever was received, decoded or timed out in them: it
    has not returned on fuel for [n] turns or fewer, it returns on every
    fuel above [n], and what it returns is the mapping accumulated over the
    turns before the [n]-th, with one record per stream that a datagram of
    these turns decodes to.  What arrives from the [n]-th turn on is not
    read. *)
Theorem discover_streams_terminates (start : T) (env : nat -> turn T)
    (duration : T) (N : Z) (K : nat) :
  0 <= N ->
  time_ltb (turn_check (env K)) (time_add start duration) = false ->
  exists n streams,
    (n <= K)%nat
    /\ (forall j, (j < n)%nat ->
          time_ltb (turn_check (env j)) (time_add start duration) = true)
    /\ time_ltb (turn_check (env n)) (time_add start duration) = false
    /\ (forall fuel, (n < fuel)%nat ->
          discover_streams fuel start env duration N = Some (Returned streams))
    /\ (forall fuel, (fuel <= n)%nat ->
          discover_streams fuel start env duration N = None)
    /\ discover_turns N ∅ (map env (seq 0 n)) = Returned streams
    /\ forall ident,
         streams !! ident = stream_record (arrivals N ident (map env (seq 0 n))).
Proof.
  intros HN HK.
  destruct (first_failing_turn
              (fun k => time_ltb (turn_check (env k)) (time_add start duration)) K HK)
    as (n & Hn & Hfail & Hbefore).
  destruct (discover_loop_exact N env (time_add start duration) n HN 0 ∅ (S n))
    as (streams & _ & Hturns); [done|done|lia|].
  exists n, streams. split; [done|]. split; [done|]. split; [done|].
  split; [|split; [|split; [done|]]].
  - intros fuel Hfuel. unfold discover_streams.
    destruct (discover_loop_exact N env (time_add start duration) n HN 0 ∅ fuel)
      as (s' & Hloop & Hturns'); [done|done|done|].
    rewrite Hturns in Hturns'. by injection Hturns' as <-.
  - intros fuel Hfuel. unfold discover_streams.
    by apply (discover_loop_running N env (time_add start duration) HN fuel n).
  - destruct (discover_turns_spec N (∅ : gmap (Z * string) (StreamInfo T)) []
                (map env (seq 0 n)) HN) as (s' & Hrun & Hrep).
    { intros ident. by rewrite lookup_empty. }
    rewrite Hturns in Hrun. injection Hrun as <-. exact Hrep.
Qed.
End DiscoveryClaims.

(** ** Command line checks *)

(** C9, on the receiver: a configuration file without parameters and no
    [--vars] passes the checks of [main], which goes on to open a socket
    with zero parameters. *)
Theorem receiver_main_accepts_zero_parameters :
  receiver_main_config (Some (Some [])) None = OpensSocket [] [].
Proof. reflexivity. Qed.

(** The receiver rejects a requested name that is not configured before it
    opens a socket. *)
Lemma receiver_main_rejects_unknown_name (config : option (option (list string)))
    (vs : list string) (v : string) (names selected : list string) :
  v ∈ vs ->
  receiver_main_config config (Some vs) = OpensSocket names selected ->
  v ∈ names.
Proof.
  unfold receiver_main_config.
  intros Hin. destruct config as [[cfg|]|]; try done.
  - destruct (forallb _ vs) eqn:Hall; [|done]. intros [= <- <-].
    rewrite forallb_forall in Hall. apply list_elem_of_In, Hall in Hin.
    by apply bool_decide_eq_true_1 in Hin.
  - destruct (forallb _ vs) eqn:Hall; [|done]. intros [= <- <-].
    rewrite forallb_forall in Hall. apply list_elem_of_In, Hall in Hin.
    by apply bool_decide_eq_true_1 in Hin.
Qed.

(** The sender rejects an empty list of variable names before it opens its
    socket. *)
Lemma sender_main_rejects_zero_parameters (vars : list string) :
  Forall (fun v => v = EmptyString) vars ->
  sender_main_config vars = ParserError.
Proof.
  intros Hall. unfold sender_main_config.
  replace (List.filter _ vars) with (@nil string); [done|].
  induction Hall as [|v vars -> _ IH]; [done|]. by cbn.
Qed.

(** ** The claims on concrete data *)

Example build_sample_datagram :
  build_iena_packet 0 2561 7 [1065353216] 1 = Returned sample_datagram.
Proof. vm_compute. reflexivity. Qed.

Example parse_sample_datagram :
  parse_iena_packet sample_datagram 1
  = Returned (Some (mkPacket 2561 11 0 0 7 1 [1065353216])).
Proof. vm_compute. reflexivity. Qed.

(** One flipped bit in the trailer (0xDEAC) makes the packet malformed. *)
Example parse_flipped_trailer :
  parse_iena_packet (take 21 sample_datagram ++ [xac]) 1 = Returned None.
Proof. vm_compute. reflexivity. Qed.

(** A negative parameter count can make the parser raise. *)
Example parse_negative_count_raises :
  parse_iena_packet (take 14 sample_datagram) (-1) = Raised StructError.
Proof. vm_compute. reflexivity. Qed.

(** The ten turns of [window_example_ops] lead to [window_example_state]. *)
Lemma window_example_run :
  receiver_run (receiver_init_with (Z.to_nat 10000) 2561 (3 : Z) ["a"%string])
               window_example_ops
  = Returned window_example_state.
Proof. vm_compute. reflexivity. Qed.

(** Samples at the seconds 0 to 9 and a window of 3 seconds: the comparison
    with the cutoff [9 - 3] is inclusive, so the sample taken at second 6 is
    part of the snapshot. *)
Example window_snapshot_example :
  get_data window_example_state ["a"%string]
  = Returned ([-3; -2; -1; 0],
              {["a"%string := [1065353222; 1065353223; 1065353224; 1065353225]]}).
Proof. vm_compute. reflexivity. Qed.

Example discovery_example :
  match discover_streams 20 0 example_env 10 1 with
  | Some (Returned streams) =>
      streams !! (2561, "10.0.0.1"%string) = Some (mkInfo 5 0 4)
      /\ streams !! (2818, "10.0.0.2"%string) = Some (mkInfo 3 7 9)
      /\ size streams = 2%nat
  | _ => False
  end.
Proof. vm_compute. repeat split. Qed.

Lemma NoDup_a : NoDup ["a"%string].
Proof. apply NoDup_singleton. Qed.

Lemma get_data_window_witness :
  exists result,
    get_data window_example_state ["a"%string] = Returned ([-3; -2; -1; 0], result)
    /\ result !! "a"%string
       = Some [1065353222; 1065353223; 1065353224; 1065353225].
Proof.
  destruct (get_data_window (Z.to_nat 10000) 2561 (3 : Z) ["a"%string]
              window_example_ops ["a"%string] NoDup_a)
    as (st & Hrun & _ & Hne).
  { intros name Hname. exact Hname. }
  rewrite window_example_run in Hrun. injection Hrun as <-.
  destruct (Hne 9 eq_refl) as (result & Hget & Hres).
  exists result. split; [exact Hget|].
  destruct (Hres "a"%string) as (d & Hd & Hr); [by left|].
  rewrite Hr. f_equal.
  unfold window_example_state in Hd. cbn [series] in Hd.
  rewrite lookup_singleton_eq in Hd. by injection Hd as <-.
Defined.

(** C3 as stated fails on a receiver that was configured with a name twice:
    one packet puts one timestamp and two values of that name, and the
    snapshot of the configured name raises [IndexError] on the mask. *)
Lemma get_data_window_counterexample :
  match receiver_run (receiver_init (T := Z) 2561 30 ["x"%string; "x"%string])
                     [OpReceive (RecvData two_value_datagram "10.0.0.1" 5001) 4] with
  | Returned st =>
      param_names st = ["x"%string; "x"%string]
      /\ d_items (timestamps st) = [4]
      /\ get_data st ["x"%string] = Raised IndexError
  | Raised _ => False
  end.
Proof. vm_compute. repeat split. Qed.

Lemma get_data_unconfigured_name_witness :
  get_data window_example_state ["a"%string; "zz"%string] = Raised KeyError.
Proof.
  destruct (get_data_unconfigured_name (Z.to_nat 10000) 2561 (3 : Z) ["a"%string]
              window_example_ops ["a"%string; "zz"%string] "zz"%string NoDup_a)
    as (st & Hrun & Hraise & _).
  - right. by left.
  - rewrite list_elem_of_singleton. done.
  - rewrite window_example_run in Hrun. injection Hrun as <-.
    apply Hraise. done.
Defined.

(** An unconfigured name on a receiver that holds no sample yet. *)
Example get_data_unconfigured_name_empty :
  get_data (receiver_init (T := Z) 2561 30 ["a"%string]) ["zz"%string]
  = Returned ([], {["zz"%string := []]}).
Proof. vm_compute. reflexivity. Qed.

(** C10 as stated fails on a receiver that was configured with a name
    twice: with one sample stored, a snapshot that asks for the configured
    name and then for a name that is not configured raises [IndexError], not
    [KeyError]. *)
Lemma get_data_unconfigured_name_counterexample :
  match receiver_run (receiver_init (T := Z) 2561 30 ["x"%string; "x"%string])
                     [OpReceive (RecvData two_value_datagram "10.0.0.1" 5001) 4] with
  | Returned st =>
      param_names st = ["x"%string; "x"%string]
      /\ d_items (timestamps st) = [4]
      /\ get_data st ["x"%string; "zz"%string] = Raised IndexError
  | Raised _ => False
  end.
Proof. vm_compute. repeat split. Qed.

Lemma NoDup_a_b : NoDup ["a"%string; "b"%string].
Proof.
  apply NoDup_cons. split; [|apply NoDup_singleton].
  rewrite list_elem_of_singleton. done.
Qed.

Lemma capacity_eviction_witness :
  exists st,
    append_samples (receiver_init_with 10 2561 (3 : Z) ["a"%string; "b"%string])
                   fifteen_samples = Returned st
    /\ d_items (timestamps st) = [5; 6; 7; 8; 9; 10; 11; 12; 13; 14]
    /\ (exists d, series st !! "a"%string = Some d
                  /\ d_items d = [105; 106; 107; 108; 109; 110; 111; 112; 113; 114])
    /\ (exists d, series st !! "b"%string = Some d
                  /\ d_items d = [205; 206; 207; 208; 209; 210; 211; 212; 213; 214]).
Proof.
  destruct (capacity_eviction 10 2561 (3 : Z) ["a"%string; "b"%string] fifteen_samples
              NoDup_a_b)
    as (st & Hrun & Hts & Hser & _).
  { unfold fifteen_samples. apply Forall_forall. intros s Hs.
    apply list_elem_of_In, in_map_iff in Hs as (k & <- & _). reflexivity. }
  exists st. split; [exact Hrun|]. split.
  { rewrite Hts. vm_compute. reflexivity. }
  split.
  - destruct (Hser 0%nat "a"%string eq_refl) as (d & Hd & Hi).
    exists d. split; [exact Hd|]. rewrite Hi. vm_compute. reflexivity.
  - destruct (Hser 1%nat "b"%string eq_refl) as (d & Hd & Hi).
    exists d. split; [exact Hd|]. rewrite Hi. vm_compute. reflexivity.
Defined.

(** C4 as stated fails on a receiver that was configured with a name twice:
    of fifteen samples at capacity 10 the timestamps buffer keeps the
    samples 5 to 14, of which the first parameter had the values 105 to 114;
    the buffer of the parameter keeps values of the samples 10 to 14 only,
    two of each. *)
Lemma capacity_eviction_counterexample :
  match append_samples (receiver_init_with 10 2561 (3 : Z) ["x"%string; "x"%string])
                       fifteen_samples with
  | Returned st =>
      (10 < length fifteen_samples)%nat
      /\ d_items (timestamps st) = [5; 6; 7; 8; 9; 10; 11; 12; 13; 14]
      /\ lastn 10 (map (fun s => nth 0 s.2 0) fifteen_samples)
         = [105; 106; 107; 108; 109; 110; 111; 112; 113; 114]
      /\ (d_items <$> series st !! "x"%string)
         = Some [110; 210; 111; 211; 112; 212; 113; 213; 114; 214]
  | Raised _ => False
  end.
Proof. vm_compute. repeat split; lia. Qed.



Lemma other_datagram_dropped :
  dropped (receiver_init (T := Z) 2561 30 ["a"%string])
          (RecvData other_datagram "10.0.0.2" 5001).
Proof.
  right. exists (mkPacket 2818 11 0 0 7 1 [1065353216]).
  split; [vm_compute; reflexivity|]. cbn. lia.
Qed.

(** The receiver with filter key 0x0A01 keeps its initial state, and its
    packet count of 0, over datagrams of key 0x0B02; a datagram of its own
    key is counted, and its arrival time and its value are the one entry of
    the timestamps buffer and of the parameter's buffer. *)
Lemma key_filtering_witness :
  let st := receiver_init (T := Z) 2561 30 ["a"%string] in
  receiver_run st
    (map (fun x => OpReceive x.1 x.2)
         [(RecvData other_datagram "10.0.0.2" 5001, 1);
          (RecvData other_datagram "10.0.0.2" 5001, 2);
          (RecvData other_datagram "10.0.0.2" 5001, 3)]) = Returned st
  /\ packet_count st = 0
  /\ exists st', listen_step st (RecvData sample_datagram "10.0.0.1" 5001) 4
                 = Returned st'
                 /\ packet_count st' = 1
                 /\ d_items (timestamps st') = [4]
                 /\ exists d', series st' !! "a"%string = Some d'
                               /\ d_items d' = [1065353216].
Proof.
  intros st.
  destruct (key_filtering (Z.to_nat 10000) 2561 (30 : Z) ["a"%string] []
              sample_datagram "10.0.0.1" 5001 4)
    as (st0 & Hrun & _ & Hstream & _ & Hmatch).
  cbn [receiver_run] in Hrun. injection Hrun as <-.
  split.
  - apply Hstream.
    repeat (constructor; [exact other_datagram_dropped|]). constructor.
  - split; [reflexivity|].
    destruct (Hmatch (mkPacket 2561 11 0 0 7 1 [1065353216]))
      as (st' & Hstep & Hcount & Hts & _ & Hval).
    + vm_compute. reflexivity.
    + reflexivity.
    + exists st'. split; [exact Hstep|]. split; [rewrite Hcount; reflexivity|].
      split; [rewrite Hts; reflexivity|].
      destruct (Hval 0%nat "a"%string) as (d & d' & v & Hd & Hd' & Hv & Hitems).
      * reflexivity.
      * intros [|j] Hj; [done|]. destruct j; discriminate.
      * exists d'. split; [exact Hd'|]. rewrite Hitems.
        vm_compute in Hd. injection Hd as <-.
        vm_compute in Hv. injection Hv as <-. reflexivity.
Defined.

Lemma example_env_before_deadline (j : nat) :
  (j < 10)%nat -> time_ltb (turn_check (example_env j)) (time_add 0 10) = true.
Proof.
  intros Hj. do 10 (destruct j as [|j]; [reflexivity|]). lia.
Qed.

Lemma discover_streams_aggregates_witness :
  exists streams,
    discover_streams 11 0 example_env 10 1 = Some (Returned streams)
    /\ streams !! (2561, "10.0.0.1"%string) = Some (mkInfo 5 0 4)
    /\ streams !! (2818, "10.0.0.2"%string) = Some (mkInfo 3 7 9)
    /\ streams !! (2561, "10.0.0.3"%string) = None.
Proof.
  destruct (discover_streams_aggregates 0 example_env 10 1 10)
    as (streams & Hrun & Hrec).
  - lia.
  - exact example_env_before_deadline.
  - reflexivity.
  - exists streams. split; [exact Hrun|].
    rewrite !Hrec. repeat split; vm_compute; reflexivity.
Defined.

(** The scan of [example_env] ends at its tenth turn: it is still running
    on fuel for ten turns, it returns on any more, and the traffic from the
    tenth second on is not in its records. *)
Lemma discover_streams_terminates_witness :
  exists streams,
    (forall fuel, (10 < fuel)%nat ->
       discover_streams fuel 0 example_env 10 1 = Some (Returned streams))
    /\ (forall fuel, (fuel <= 10)%nat ->
          discover_streams fuel 0 example_env 10 1 = None)
    /\ streams !! (2561, "10.0.0.1"%string) = Some (mkInfo 5 0 4)
    /\ streams !! (2818, "10.0.0.2"%string) = Some (mkInfo 3 7 9).
Proof.
  destruct (discover_streams_terminates 0 example_env 10 1 12)
    as (n & streams & Hn & Hbefore & Hfail & Hret & Hnot & _ & Hrec);
    [lia|reflexivity|].
  assert (n = 10%nat) as ->.
  { destruct (Nat.lt_trichotomy n 10) as [Hlt|[->|Hgt]]; [|done|].
    - rewrite example_env_before_deadline in Hfail by done. discriminate.
    - specialize (Hbefore 10%nat Hgt). vm_compute in Hbefore. discriminate. }
  exists streams. split; [exact Hret|]. split; [exact Hnot|].
  rewrite !Hrec. split; vm_compute; reflexivity.
Defined.

(** * Further properties of the codec *)

Lemma decode_fields_app (fs : list fmt) (bs extra : bytes) :
  (calcsize fs <= length bs)%nat ->
  decode_fields fs (bs ++ extra) = decode_fields fs bs.
Proof.
  revert bs. induction fs as [|c fs IH]; intros bs Hlen; [done|].
  cbn [calcsize foldr] in Hlen. fold (calcsize fs) in Hlen.
  cbn [decode_fields]. rewrite take_app_le, drop_app_le by lia.
  f_equal. apply IH. rewrite length_drop. lia.
Qed.

Lemma u16_at_app (data extra : bytes) (off : Z) :
  0 <= off -> off + 2 <= Z.of_nat (length data) ->
  u16_at (data ++ extra) off = u16_at data off.
Proof.
  intros H0 Hlen. unfold u16_at. by rewrite !app_nth1 by lia.
Qed.

(** X1: bytes after the trailer are ignored: a buffer that holds at least
    16 + 4N + 2 bytes decodes the same with anything appended to it. *)
Theorem parse_ignores_trailing_bytes (data extra : bytes) (N : Z) :
  0 <= N ->
  16 + 4 * N + 2 <= Z.of_nat (length data) ->
  parse_iena_packet (data ++ extra) N = parse_iena_packet data N.
Proof.
  intros HN Hlen. rewrite !parse_iena_packet_eq by done.
  rewrite length_app.
  rewrite (proj2 (Z.ltb_ge (Z.of_nat (length data + length extra)) _)) by lia.
  rewrite (proj2 (Z.ltb_ge (Z.of_nat (length data)) _)) by lia.
  rewrite u16_at_app by lia.
  destruct (u16_at data (16 + 4 * N) =? IENA_TRAILER); [|done].
  do 2 f_equal. unfold decoded_packet.
  rewrite !drop_app_le by lia. rewrite !take_app_le by (rewrite ?length_drop; lia).
  f_equal. apply decode_fields_app.
  rewrite calcsize_floats, length_drop. lia.
Qed.

Lemma parse_ignores_trailing_bytes_witness :
  parse_iena_packet (sample_datagram ++ [x00; xff; x17]) 1
  = parse_iena_packet sample_datagram 1.
Proof. apply parse_ignores_trailing_bytes; simpl; lia. Defined.

Lemma be_value_take_range (n : nat) (bs : bytes) :
  0 <= be_value (take n bs) < 256 ^ Z.of_nat n.
Proof.
  pose proof (be_value_range (take n bs)) as Hr.
  assert (Hl : (length (take n bs) <= n)%nat) by (rewrite length_take; lia).
  assert (256 ^ Z.of_nat (length (take n bs)) <= 256 ^ Z.of_nat n)
    by (apply Z.pow_le_mono_r; lia).
  lia.
Qed.

Lemma decode_floats_is_f32 (n : nat) (bs : bytes) :
  Forall is_f32 (decode_fields (replicate n fmt_f) bs).
Proof.
  revert bs. induction n as [|n IH]; intros bs; cbn [replicate decode_fields].
  - constructor.
  - constructor; [|apply IH]. cbn [fmt_width unpack_field].
    apply f32_quiet_is_f32. unfold is_f32.
    pose proof (be_value_take_range 4 bs) as Hr.
    change (256 ^ Z.of_nat 4) with (2 ^ 32) in Hr. exact Hr.
Qed.

(** X2: every packet the parser returns has 16-bit key, size, status,
    sequence and parameter-count fields, a 32-bit time field, and as many
    values as configured, each a 32-bit pattern. *)
Theorem parse_fields_in_range (data : bytes) (N : Z) (p : IenaPacket) :
  0 <= N ->
  parse_iena_packet data N = Returned (Some p) ->
  0 <= pkt_key p < 65536
  /\ 0 <= pkt_size p < 65536
  /\ 0 <= pkt_time_us p < 4294967296
  /\ 0 <= pkt_status p < 65536
  /\ 0 <= pkt_sequence p < 65536
  /\ 0 <= pkt_n_params p < 65536
  /\ Z.of_nat (length (pkt_values p)) = N
  /\ Forall is_f32 (pkt_values p).
Proof.
  intros HN. rewrite parse_iena_packet_eq by done.
  destruct (_ <? _); [done|]. destruct (_ =? _); [|done].
  intros [= <-]. unfold decoded_packet. cbn.
  pose proof (be_value_take_range 2) as H2.
  pose proof (be_value_take_range 4) as H4.
  change (256 ^ Z.of_nat 2) with 65536 in H2.
  change (256 ^ Z.of_nat 4) with 4294967296 in H4.
  repeat split; try apply H2; try apply H4.
  - rewrite length_decode_fields, length_replicate. lia.
  - apply decode_floats_is_f32.
Qed.

Lemma parse_fields_in_range_witness :
  let p := mkPacket 2561 11 0 0 7 1 [1065353216] in
  0 <= pkt_key p < 65536
  /\ 0 <= pkt_size p < 65536
  /\ 0 <= pkt_time_us p < 4294967296
  /\ 0 <= pkt_status p < 65536
  /\ 0 <= pkt_sequence p < 65536
  /\ 0 <= pkt_n_params p < 65536
  /\ Z.of_nat (length (pkt_values p)) = 1
  /\ Forall is_f32 (pkt_values p).
Proof.
  apply (parse_fields_in_range sample_datagram 1); [lia|].
  vm_compute. reflexivity.
Defined.

Lemma struct_pack_floats_mismatch (n : nat) (values : list Z) :
  length values <> n ->
  struct_pack (replicate n fmt_f) values = Raised StructError.
Proof.
  revert values. induction n as [|n IH]; intros [|v values] Hne; simpl in *; try done.
  rewrite IH by lia. done.
Qed.

Lemma build_iena_packet_raises (us key sequence : Z) (values : list Z) (N : Z) :
  ~ (0 <= N <= 32763 /\ 0 <= key <= 65535 /\ Z.of_nat (length values) = N) ->
  build_iena_packet us key sequence values N = Raised StructError.
Proof.
  intros Hbad. unfold build_iena_packet, floats_format.
  destruct (N <? 0) eqn:EN; [done|]. apply Z.ltb_ge in EN. cbn [obind].
  destruct (decide (length values = Z.to_nat N)) as [Hlen|Hlen].
  2:{ by rewrite struct_pack_floats_mismatch. }
  rewrite <- Hlen, struct_pack_floats. cbn [obind].
  rewrite length_payload.
  replace ((16 + Z.of_nat (4 * length values) + 2) / 2) with (9 + 2 * N).
  2:{ apply Z.div_unique_exact; lia. }
  cbn [struct_pack header_format pack_field].
  destruct ((0 <=? key) && (key <=? 65535)) eqn:Ek; [|done]. cbn [obind].
  destruct ((0 <=? 9 + 2 * N) && (9 + 2 * N <=? 65535)) eqn:Es; [|done].
  exfalso. apply Hbad. lia.
Qed.

(** What is known of a packet that [build_iena_packet] returned. *)
Lemma build_iena_packet_inv (us key sequence : Z) (values : list Z) (N : Z) (data : bytes) :
  build_iena_packet us key sequence values N = Returned data ->
  0 <= N <= 32763 /\ 0 <= key < 65536 /\ Z.of_nat (length values) = N
  /\ exists hdr,
       struct_pack header_format (header_values us key sequence N) = Returned hdr
       /\ length hdr = 16%nat
       /\ data = hdr ++ concat (map (be_bytes 4) (map f32_quiet values))
                     ++ be_bytes 2 IENA_TRAILER.
Proof.
  intros Hb.
  destruct (decide (0 <= N <= 32763 /\ 0 <= key <= 65535 /\ Z.of_nat (length values) = N))
    as [(HN & Hkey & Hlen)|Hbad].
  - split; [done|]. split; [lia|]. split; [done|].
    destruct (build_iena_packet_eq us key sequence values N) as (hdr & Hhdr & Hb');
      [lia|lia|done|].
    exists hdr. split; [done|]. split; [by apply struct_pack_length in Hhdr|].
    congruence.
  - by rewrite build_iena_packet_raises in Hb.
Qed.

(** X3: [build_iena_packet] returns exactly when the parameter count is
    between 0 and 32763 (the size field holds 9 + 2N), the key is a 16-bit
    value and there are as many values as parameters; it then returns
    16 + 4N + 2 bytes, and in every other case it raises [struct.error]. *)
Theorem build_iena_packet_returns_iff (us key sequence : Z) (values : list Z) (N : Z) :
  (0 <= N <= 32763 /\ 0 <= key <= 65535 /\ Z.of_nat (length values) = N ->
     exists data, build_iena_packet us key sequence values N = Returned data
                  /\ Z.of_nat (length data) = 16 + 4 * N + 2)
  /\ (~ (0 <= N <= 32763 /\ 0 <= key <= 65535 /\ Z.of_nat (length values) = N) ->
        build_iena_packet us key sequence values N = Raised StructError).
Proof.
  split; [|apply build_iena_packet_raises].
  intros (HN & Hkey & Hlen).
  destruct (build_iena_packet_eq us key sequence values N) as (hdr & Hhdr & Hb);
    [lia|lia|done|].
  eexists. split; [exact Hb|].
  apply struct_pack_length in Hhdr.
  rewrite !length_app, Hhdr, length_payload, length_be_bytes. simpl. lia.
Qed.

Lemma build_iena_packet_returns_iff_witness :
  (exists data, build_iena_packet 0 2561 7 [1065353216] 1 = Returned data
                /\ Z.of_nat (length data) = 16 + 4 * 1 + 2)
  /\ build_iena_packet 0 65536 7 [1065353216] 1 = Raised StructError.
Proof.
  split.
  - apply (build_iena_packet_returns_iff 0 2561 7 [1065353216] 1). simpl. lia.
  - apply (build_iena_packet_returns_iff 0 65536 7 [1065353216] 1). lia.
Defined.

(** X4: the header fields survive the round trip as the sender writes them:
    for any integer sequence counter, any value [us] of the integer
    [us_since_midnight] and any binary32 values none of which is a NaN, the
    decoded sequence is the counter modulo 65536, the decoded time is [us]
    modulo 2^32, the status is 0, the declared count is N, the size field
    counts the 16-bit words of the packet, and the values come back as the
    patterns that were sent. *)
Theorem build_parse_header_fields (us key sequence : Z) (values : list Z) (N : Z) :
  0 <= N <= 32763 -> 0 <= key < 65536 ->
  Z.of_nat (length values) = N ->
  Forall is_f32 values ->
  Forall (fun v => f32_is_nan v = false) values ->
  exists data pkt,
    build_iena_packet us key sequence values N = Returned data
    /\ parse_iena_packet data N = Returned (Some pkt)
    /\ pkt_key pkt = key
    /\ pkt_sequence pkt = sequence mod 65536
    /\ pkt_time_us pkt = us mod 4294967296
    /\ pkt_status pkt = 0
    /\ pkt_n_params pkt = N
    /\ 2 * pkt_size pkt = Z.of_nat (length data)
    /\ pkt_values pkt = values.
Proof.
  intros HN Hkey Hlen Hf Hnan.
  destruct (parse_build_iena_packet us key sequence values N HN Hkey Hlen Hf Hnan)
    as (data & Hb & Hl & _ & Hp).
  eexists data, _. split; [exact Hb|]. split; [exact Hp|]. cbn.
  change 65535 with (Z.ones 16). change 4294967295 with (Z.ones 32).
  rewrite !Z.land_ones by lia.
  repeat split; try done. lia.
Qed.

Lemma build_parse_header_fields_witness :
  exists data pkt,
    build_iena_packet 4294967297 2561 65543 [1065353216] 1 = Returned data
    /\ parse_iena_packet data 1 = Returned (Some pkt)
    /\ pkt_key pkt = 2561
    /\ pkt_sequence pkt = 65543 mod 65536
    /\ pkt_time_us pkt = 4294967297 mod 4294967296
    /\ pkt_status pkt = 0
    /\ pkt_n_params pkt = 1
    /\ 2 * pkt_size pkt = Z.of_nat (length data)
    /\ pkt_values pkt = [1065353216].
Proof.
  apply build_parse_header_fields; try lia; try reflexivity.
  - repeat constructor; unfold is_f32; lia.
  - repeat constructor.
Defined.

(** X5: for a negative parameter count the parser never returns a packet: it
    returns [None] or raises [struct.error]. *)
Theorem parse_negative_count (data : bytes) (N : Z) :
  N < 0 ->
  parse_iena_packet data N = Returned None
  \/ parse_iena_packet data N = Raised StructError.
Proof.
  intros HN. unfold parse_iena_packet, struct_unpack_from, floats_format.
  rewrite (proj2 (Z.ltb_lt N 0)) by done.
  repeat match goal with
         | |- context [if ?b then _ else _] =>
             destruct b; cbn [obind decode_fields header_format]
         end; auto.
Qed.

Lemma parse_negative_count_witness :
  parse_iena_packet sample_datagram (-1) = Returned None
  \/ parse_iena_packet sample_datagram (-1) = Raised StructError.
Proof. apply parse_negative_count. lia. Defined.

(** ** Decoding with another parameter count than the sender's *)

Lemma drop_packed_floats (m : nat) (values : list Z) :
  drop (4 * m) (concat (map (be_bytes 4) values))
  = concat (map (be_bytes 4) (drop m values)).
Proof.
  revert values. induction m as [|m IH]; intros values; [done|].
  destruct values as [|v values]; [done|].
  cbn [map concat drop]. rewrite <- IH.
  replace (4 * S m)%nat with (4 + 4 * m)%nat by lia.
  rewrite <- drop_drop. f_equal.
Qed.

Lemma be_value_high_half (v : Z) :
  is_f32 v -> be_value (take 2 (be_bytes 4 v)) = v / 65536.
Proof.
  unfold is_f32. intros Hv. cbn [be_bytes take].
  unfold be_value. cbn [fold_left]. rewrite !Z_of_byte_of_Z.
  change (256 ^ Z.of_nat 3) with (65536 * 256).
  change (256 ^ Z.of_nat 2) with 65536.
  rewrite <- Z.div_div by lia.
  assert (Hq : 0 <= v / 65536 < 65536).
  { split; [apply Z.div_pos; lia|apply Z.div_lt_upper_bound; lia]. }
  set (q := v / 65536) in *.
  rewrite (Z.mod_small (q / 256) 256).
  2:{ split; [apply Z.div_pos; lia|apply Z.div_lt_upper_bound; lia]. }
  pose proof (Z.div_mod q 256 ltac:(lia)). lia.
Qed.

(** The 16-bit word that a decoder configured with [M] parameters reads as
    the trailer of a packet built with more than [M] values is the high half
    of the value at position [M]. *)
Lemma u16_at_built_payload (hdr : bytes) (values : list Z) (M : nat) (v : Z) :
  length hdr = 16%nat ->
  values !! M = Some v -> is_f32 v ->
  u16_at (hdr ++ concat (map (be_bytes 4) values) ++ be_bytes 2 IENA_TRAILER)
         (16 + 4 * Z.of_nat M)
  = v / 65536.
Proof.
  intros Hh Hv Hf.
  pose proof (lookup_lt_Some _ _ _ Hv) as HM.
  rewrite <- u16_at_drop.
  2:{ lia. }
  2:{ rewrite !length_app, Hh, length_packed_floats, length_be_bytes. lia. }
  replace (Z.to_nat (16 + 4 * Z.of_nat M)) with (16 + 4 * M)%nat by lia.
  rewrite <- drop_drop, (drop_app_length' hdr _ 16) by done.
  rewrite drop_app_le by (rewrite length_packed_floats; lia).
  rewrite drop_packed_floats, (drop_S _ _ _ Hv).
  cbn [map concat]. rewrite <- !app_assoc.
  rewrite take_app_le by (rewrite length_be_bytes; lia).
  by apply be_value_high_half.
Qed.

Lemma struct_pack_floats_non_nan (values : list Z) :
  Forall (fun v => f32_is_nan v = false) values ->
  struct_pack (replicate (length values) fmt_f) values
  = Returned (concat (map (be_bytes 4) values)).
Proof.
  intros Hn. by rewrite struct_pack_floats, map_f32_quiet_non_nan.
Qed.

(** X6: a packet built for N parameters from binary32 values none of which
    is a NaN, and decoded with another count M: with M above N it is
    rejected as too short; with M below N it is rejected unless the high
    half of the value at position M is 0xDEAD, and is then decoded to the
    first M values with the declared count N. *)
Theorem parse_with_other_count (us key sequence : Z) (values : list Z) (N M : Z)
    (data : bytes) :
  build_iena_packet us key sequence values N = Returned data ->
  Forall is_f32 values ->
  Forall (fun v => f32_is_nan v = false) values ->
  0 <= M ->
  (N < M -> parse_iena_packet data M = Returned None)
  /\ (forall v, M < N -> values !! Z.to_nat M = Some v ->
        (v / 65536 <> IENA_TRAILER -> parse_iena_packet data M = Returned None)
        /\ (v / 65536 = IENA_TRAILER ->
              exists pkt, parse_iena_packet data M = Returned (Some pkt)
                          /\ pkt_values pkt = take (Z.to_nat M) values
                          /\ pkt_n_params pkt = N)).
Proof.
  intros Hb Hf Hnan HM.
  destruct (build_iena_packet_inv _ _ _ _ _ _ Hb)
    as (HN & Hkey & Hlen & hdr & Hhdr & Hlh & ->).
  rewrite (map_f32_quiet_non_nan values Hnan).
  set (payload := concat (map (be_bytes 4) values)).
  assert (Hld : Z.of_nat (length (hdr ++ payload ++ be_bytes 2 IENA_TRAILER))
                = 16 + 4 * N + 2).
  { unfold payload.
    rewrite !length_app, Hlh, length_packed_floats, length_be_bytes. lia. }
  split.
  - intros Hgt. rewrite parse_iena_packet_eq by done.
    by rewrite (proj2 (Z.ltb_lt _ _)) by lia.
  - intros v Hlt Hv.
    assert (Hfv : is_f32 v).
    { rewrite Forall_forall in Hf. apply Hf. by eapply list_elem_of_lookup_2. }
    assert (Htr : u16_at (hdr ++ payload ++ be_bytes 2 IENA_TRAILER) (16 + 4 * M)
                  = v / 65536).
    { replace M with (Z.of_nat (Z.to_nat M)) at 1 by lia.
      by apply u16_at_built_payload. }
    rewrite parse_iena_packet_eq by done.
    rewrite (proj2 (Z.ltb_ge _ _)) by lia. rewrite Htr. split.
    + intros Hne. by rewrite (proj2 (Z.eqb_neq _ _) Hne).
    + intros Heq. rewrite Heq, Z.eqb_refl. eexists. split; [done|].
      unfold decoded_packet. cbn [pkt_values pkt_n_params]. split.
      * rewrite (drop_app_length' hdr _ 16) by done.
        unfold payload. rewrite <- (take_drop (Z.to_nat M) values) at 1.
        rewrite map_app, concat_app, <- app_assoc.
        assert (Hlt' : length (take (Z.to_nat M) values) = Z.to_nat M)
          by (rewrite length_take; lia).
        assert (Hft : Forall is_f32 (take (Z.to_nat M) values))
          by (by apply Forall_take).
        assert (Hnt : Forall (fun v => f32_is_nan v = false) (take (Z.to_nat M) values))
          by (by apply Forall_take).
        set (l := take (Z.to_nat M) values) in *. rewrite <- Hlt'.
        apply decode_fields_pack; [by apply struct_pack_floats_non_nan|].
        by apply Forall2_floats_f32.
      * assert (Hd : decode_fields header_format
                       (hdr ++ payload ++ be_bytes 2 IENA_TRAILER)
                     = header_values us key sequence N).
        { apply decode_fields_pack; [done|].
          unfold header_format, header_values.
          repeat (apply Forall2_cons; split); try apply Forall2_nil; done. }
        cbn [decode_fields header_format fmt_width] in Hd.
        rewrite !drop_drop in Hd. cbn [Nat.add] in Hd.
        unfold header_values in Hd. by injection Hd as _ _ _ _ _ _ E7.
Qed.

Lemma parse_with_other_count_witness :
  parse_iena_packet sample_datagram 2 = Returned None
  /\ parse_iena_packet sample_datagram 0 = Returned None
  /\ exists pkt, parse_iena_packet trailer_like_datagram 1 = Returned (Some pkt)
                 /\ pkt_values pkt = take (Z.to_nat 1) [1065353216; 3735879680]
                 /\ pkt_n_params pkt = 2.
Proof.
  destruct (parse_with_other_count 0 2561 7 [1065353216] 1 2 sample_datagram)
    as [Hup _];
    [vm_compute; reflexivity|repeat constructor; unfold is_f32; lia
    |repeat constructor|lia|].
  destruct (parse_with_other_count 0 2561 7 [1065353216] 1 0 sample_datagram)
    as [_ Hdown];
    [vm_compute; reflexivity|repeat constructor; unfold is_f32; lia
    |repeat constructor|lia|].
  destruct (parse_with_other_count 0 2561 7 [1065353216; 3735879680] 2 1
              trailer_like_datagram)
    as [_ Hlike];
    [vm_compute; reflexivity|repeat constructor; unfold is_f32; lia
    |repeat constructor|lia|].
  split; [apply Hup; lia|]. split.
  - destruct (Hdown 1065353216) as [Hrej _]; [lia|reflexivity|].
    apply Hrej. vm_compute. discriminate.
  - destruct (Hlike 3735879680) as [_ Hacc]; [lia|reflexivity|].
    apply Hacc. reflexivity.
Defined.

(** X7: when every value has a clear sign bit (a non-negative float, as the
    sender generates), a decoder configured with any other parameter count
    than the sender's rejects the packet. *)
Theorem parse_other_count_rejects_nonnegative (us key sequence : Z) (values : list Z)
    (N M : Z) (data : bytes) :
  build_iena_packet us key sequence values N = Returned data ->
  Forall (fun v => 0 <= v < 2 ^ 31) values ->
  0 <= M -> M <> N ->
  parse_iena_packet data M = Returned None.
Proof.
  intros Hb Hpos HM Hne.
  destruct (build_iena_packet_inv _ _ _ _ _ _ Hb)
    as (HN & Hkey & Hlen & hdr & Hhdr & Hlh & ->).
  set (sent := map f32_quiet values).
  assert (Hld : Z.of_nat (length (hdr ++ concat (map (be_bytes 4) sent)
                                      ++ be_bytes 2 IENA_TRAILER))
                = 16 + 4 * N + 2).
  { unfold sent. rewrite !length_app, Hlh, length_payload, length_be_bytes. lia. }
  rewrite parse_iena_packet_eq by done.
  destruct (Z.ltb_spec (Z.of_nat (length (hdr ++ concat (map (be_bytes 4) sent)
                                            ++ be_bytes 2 IENA_TRAILER)))
                       (16 + 4 * M + 2)) as [|Hge]; [done|].
  destruct (lookup_lt_is_Some_2 values (Z.to_nat M)) as [v Hv]; [lia|].
  assert (Hv31 : 0 <= v < 2 ^ 31).
  { rewrite Forall_forall in Hpos. apply Hpos. by eapply list_elem_of_lookup_2. }
  assert (Hq31 : 0 <= f32_quiet v < 2 ^ 31) by (apply f32_quiet_range; lia).
  assert (Hsent : sent !! Z.to_nat M = Some (f32_quiet v))
    by (unfold sent; by rewrite list_lookup_fmap, Hv).
  replace M with (Z.of_nat (Z.to_nat M)) at 1 by lia.
  rewrite (u16_at_built_payload hdr sent _ (f32_quiet v))
    by (done || (unfold is_f32; lia)).
  assert (f32_quiet v / 65536 < 32768) by (apply Z.div_lt_upper_bound; lia).
  rewrite (proj2 (Z.eqb_neq _ _)); [done|]. unfold IENA_TRAILER. lia.
Qed.

Lemma parse_other_count_rejects_nonnegative_witness :
  parse_iena_packet sample_datagram 0 = Returned None.
Proof.
  apply (parse_other_count_rejects_nonnegative 0 2561 7 [1065353216] 1 0).
  - vm_compute. reflexivity.
  - repeat constructor; lia.
  - lia.
  - lia.
Defined.

(** * Further properties of the receiver *)

Lemma parse_key_range (data : bytes) (N : Z) (p : IenaPacket) :
  0 <= N ->
  parse_iena_packet data N = Returned (Some p) ->
  0 <= pkt_key p < 65536.
Proof.
  intros HN. rewrite parse_iena_packet_eq by done.
  destruct (_ <? _); [done|]. destruct (_ =? _); [|done].
  intros [= <-]. exact (be_value_take_range 2 data).
Qed.

Section ReceiverRuns.
Context {T : Type}.
Implicit Types (st : IenaMulticastReceiver T) (now : T).

(** One turn of the ingestion loop either leaves the receiver as it is or
    runs the locked block on as many values as there are parameters. *)
Lemma listen_step_cases st (r : recv_result) now :
  0 <= num_params st ->
  num_params st = Z.of_nat (length (param_names st)) ->
  listen_step st r now = Returned st
  \/ exists values, length values = length (param_names st)
                    /\ listen_step st r now = append_sample st now values.
Proof.
  intros H0 Hnum. destruct r as [|data ip port]; [by left|].
  destruct (parse_iena_packet_cases data (num_params st) H0) as [Hp|(p & Hp & Hl)].
  - left. apply listen_step_dropped. by left.
  - destruct (decide (pkt_key p = key_filter st)) as [Hk|Hk].
    + right. exists (pkt_values p). split; [lia|]. by apply listen_step_matched.
    + left. apply listen_step_dropped. right. by exists p.
Qed.

Lemma receiver_run_count st (ops : list (receiver_op T)) (maxlen : nat) :
  receiver_wf st ->
  d_maxlen (timestamps st) = maxlen ->
  0 <= packet_count st ->
  length (d_items (timestamps st)) = (Z.to_nat (packet_count st) `min` maxlen)%nat ->
  exists st',
    receiver_run st ops = Returned st'
    /\ receiver_wf st'
    /\ d_maxlen (timestamps st') = maxlen
    /\ packet_count st <= packet_count st' <= packet_count st + Z.of_nat (length ops)
    /\ length (d_items (timestamps st'))
       = (Z.to_nat (packet_count st') `min` maxlen)%nat.
Proof.
  revert st. induction ops as [|op ops IH]; intros st Hwf Hmax Hc Hlen.
  - exists st. cbn [receiver_run length].
    split; [done|]. split; [done|]. split; [done|]. split; [lia|done].
  - assert (Hsame : exists st1,
               Returned st = Returned st1 /\ receiver_wf st1
               /\ d_maxlen (timestamps st1) = maxlen
               /\ packet_count st <= packet_count st1 <= packet_count st + 1
               /\ length (d_items (timestamps st1))
                  = (Z.to_nat (packet_count st1) `min` maxlen)%nat).
    { exists st. split; [done|]. split; [done|]. split; [done|]. split; [lia|done]. }
    assert (Hstep : exists st1,
               receiver_step st op = Returned st1 /\ receiver_wf st1
               /\ d_maxlen (timestamps st1) = maxlen
               /\ packet_count st <= packet_count st1 <= packet_count st + 1
               /\ length (d_items (timestamps st1))
                  = (Z.to_nat (packet_count st1) `min` maxlen)%nat).
    { destruct op as [r now|vars|]; cbn [receiver_step].
      - destruct (running st); [|exact Hsame].
        pose proof Hwf as (_ & Hnum & _).
        destruct (listen_step_cases st r now) as [->|(values & Hv & ->)];
          [lia|done|exact Hsame|].
        destruct (append_sample_spec st now values Hwf Hv) as (ser' & Heq & _).
        eexists. split; [exact Heq|].
        split; [by eapply append_sample_wf|].
        cbn [timestamps packet_count]. split; [done|]. split; [lia|].
        rewrite length_deque_append, Hlen, Hmax.
        destruct (Nat.ltb_spec maxlen (Z.to_nat (packet_count st) `min` maxlen + 1));
          lia.
      - exact Hsame.
      - exists (stop st). split; [done|]. split; [exact Hwf|].
        split; [done|]. split; [cbn; lia|done]. }
    destruct Hstep as (st1 & Hs & Hwf1 & Hmax1 & Hc1 & Hlen1).
    destruct (IH st1 Hwf1 Hmax1 ltac:(lia) Hlen1) as (st' & Hr & Hwf' & Hmax' & Hc' & Hlen').
    exists st'. cbn [receiver_run length]. rewrite Hs. cbn [obind].
    split; [done|]. split; [done|]. split; [done|]. split; [lia|done].
Qed.

(** X8: on a receiver built from unique names, after any operations, the
    packet count is not negative and at most the number of operations, the
    timestamps buffer holds min(packet count, capacity) entries, and no
    buffer of a parameter holds more than the capacity. *)
Theorem receiver_buffers_bounded (maxlen : nat) (key : Z) (win : T)
    (names : list string) (ops : list (receiver_op T)) :
  NoDup names ->
  exists st,
    receiver_run (receiver_init_with maxlen key win names) ops = Returned st
    /\ 0 <= packet_count st <= Z.of_nat (length ops)
    /\ length (d_items (timestamps st))
       = (Z.to_nat (packet_count st) `min` maxlen)%nat
    /\ forall name d, series st !! name = Some d ->
         (length (d_items d) <= maxlen)%nat.
Proof.
  intros Hnd.
  destruct (receiver_run_count (receiver_init_with maxlen key win names) ops maxlen)
    as (st & Hrun & Hwf & Hmax & Hc & Hlen); try done.
  - by apply receiver_wf_init.
  - exists st. split; [done|]. cbn [receiver_init_with packet_count] in Hc.
    split; [lia|]. split; [done|].
    intros name d Hd. destruct Hwf as (_ & _ & _ & Hl).
    destruct (Hl name d Hd) as [-> _]. lia.
Qed.

(** X9: a receiver whose key filter is not a 16-bit value (the command line
    accepts any integer) drops every datagram: after any operations its
    packet count is 0 and its buffers are empty. *)
Theorem receiver_key_out_of_range (maxlen : nat) (key : Z) (win : T)
    (names : list string) (ops : list (receiver_op T)) :
  ~ (0 <= key < 65536) ->
  exists st,
    receiver_run (receiver_init_with maxlen key win names) ops = Returned st
    /\ packet_count st = 0
    /\ d_items (timestamps st) = []
    /\ series st = new_series maxlen names.
Proof.
  intros Hkey.
  assert (Hgen : forall st, key_filter st = key -> 0 <= num_params st ->
            exists st', receiver_run st ops = Returned st'
                        /\ packet_count st' = packet_count st
                        /\ timestamps st' = timestamps st
                        /\ series st' = series st).
  { induction ops as [|op ops IH]; intros st Hk HN; [by exists st|].
    assert (Hstep : exists st1, receiver_step st op = Returned st1
                                /\ key_filter st1 = key /\ 0 <= num_params st1
                                /\ packet_count st1 = packet_count st
                                /\ timestamps st1 = timestamps st
                                /\ series st1 = series st).
    { destruct op as [r now|vars|]; cbn [receiver_step].
      - destruct (running st); [|by exists st].
        exists st. split; [|done]. apply listen_step_dropped.
        destruct r as [|data ip port]; [done|]. cbn [dropped].
        destruct (parse_iena_packet_cases data (num_params st) HN) as [Hp|(p & Hp & _)];
          [by left|].
        right. exists p. split; [done|].
        pose proof (parse_key_range _ _ _ HN Hp). lia.
      - by exists st.
      - by exists (stop st). }
    destruct Hstep as (st1 & Hs & Hk1 & HN1 & Hc1 & Ht1 & Hs1).
    destruct (IH st1 Hk1 HN1) as (st' & Hr & Hc' & Ht' & Hs').
    exists st'. cbn [receiver_run]. rewrite Hs. cbn [obind].
    split; [done|]. split; [congruence|]. split; congruence. }
  destruct (Hgen (receiver_init_with maxlen key win names)) as (st & Hr & Hc & Ht & Hs);
    [done|cbn; lia|].
  exists st. split; [done|]. split; [by rewrite Hc|]. split; [by rewrite Ht|done].
Qed.

End ReceiverRuns.

Lemma receiver_buffers_bounded_witness :
  exists st,
    receiver_run (receiver_init_with 1 2561 (3 : Z) ["a"%string])
      [OpReceive (RecvData sample_datagram "10.0.0.1" 5001) 0;
       OpReceive (RecvData sample_datagram "10.0.0.1" 5001) 1] = Returned st
    /\ 0 <= packet_count st <= 2
    /\ length (d_items (timestamps st)) = (Z.to_nat (packet_count st) `min` 1)%nat.
Proof.
  destruct (receiver_buffers_bounded 1 2561 (3 : Z) ["a"%string]
              [OpReceive (RecvData sample_datagram "10.0.0.1" 5001) 0;
               OpReceive (RecvData sample_datagram "10.0.0.1" 5001) 1] NoDup_a)
    as (st & Hrun & Hc & Hlen & _).
  exists st. split; [exact Hrun|]. split; [exact Hc|exact Hlen].
Defined.

Lemma receiver_key_out_of_range_witness :
  exists st,
    receiver_run (receiver_init_with 10 68097 (3 : Z) ["a"%string])
      [OpReceive (RecvData sample_datagram "10.0.0.1" 5001) 0] = Returned st
    /\ packet_count st = 0
    /\ d_items (timestamps st) = []
    /\ series st = new_series 10 ["a"%string].
Proof. apply receiver_key_out_of_range. lia. Defined.

Lemma length_mask_select_le {A} (mask : list bool) (l : list A) :
  (length (mask_select mask l) <= length l)%nat.
Proof.
  revert l. induction mask as [|b mask IH]; intros [|x l]; cbn; try lia.
  specialize (IH l). destruct b; cbn; lia.
Qed.

Section SnapshotKeys.
Context {T : Type} `{Clock T}.

(** The keys of a snapshot, on a state within the invariant. *)
Lemma snapshot_keys_wf (st : IenaMulticastReceiver T) (var_names : list string) :
  receiver_wf st ->
  (forall name, name ∈ var_names -> name ∈ param_names st) ->
  exists rel result,
    get_data st var_names = Returned (rel, result)
    /\ (forall name, is_Some (result !! name) <-> name ∈ var_names)
    /\ (length rel <= length (d_items (timestamps st)))%nat.
Proof.
  intros (Hnd & Hnum & Hdom & Hlen) Hcfg. unfold get_data.
  destruct (last (d_items (timestamps st))) as [latest|] eqn:Hlast.
  - set (mask := map _ (d_items (timestamps st))).
    destruct (masked_series_spec var_names (series st) mask ∅)
      as (result & Hrun & Hin & Hframe).
    { intros name Hname. destruct (proj1 (Hdom name) (Hcfg name Hname)) as [d Hd].
      exists d. split; [done|]. unfold mask. rewrite length_map.
      by destruct (Hlen name d Hd). }
    rewrite Hrun. cbn [obind]. eexists _, result. split; [done|]. split.
    + intros name. split.
      * intros Hsome. destruct (decide (name ∈ var_names)) as [|Hni]; [done|].
        rewrite Hframe, lookup_empty in Hsome by done. by destruct Hsome.
      * intros Hname. destruct (Hin name Hname) as (d & _ & ->). by eexists.
    + rewrite length_map. apply length_mask_select_le.
  - eexists [], _. split; [done|]. split; [|cbn; lia].
    intros name. rewrite lookup_foldl_insert_const, lookup_empty.
    case_decide; split; try done; try (by eexists); by intros [? ?].
Qed.

(** X10: on a receiver built from unique parameter names, after any
    operations, a snapshot of configured names returns a dictionary whose
    keys are exactly the requested names (a name requested twice is one
    key), and relative timestamps that are not more than the stored
    ones. *)
Theorem get_data_keys (maxlen : nat) (key : Z) (win : T) (names : list string)
    (ops : list (receiver_op T)) (var_names : list string) :
  NoDup names ->
  (forall name, name ∈ var_names -> name ∈ names) ->
  exists st rel result,
    receiver_run (receiver_init_with maxlen key win names) ops = Returned st
    /\ get_data st var_names = Returned (rel, result)
    /\ (forall name, is_Some (result !! name) <-> name ∈ var_names)
    /\ (length rel <= length (d_items (timestamps st)))%nat.
Proof.
  intros Hnd Hcfg.
  destruct (receiver_run_init maxlen key win names ops Hnd)
    as (st & Hrun & Hwf & Hnames & _).
  rewrite <- Hnames in Hcfg.
  destruct (snapshot_keys_wf st var_names Hwf Hcfg) as (rel & result & Hget & Hkeys & Hlen).
  by exists st, rel, result.
Qed.
End SnapshotKeys.

Lemma get_data_keys_witness :
  exists rel result,
    get_data window_example_state ["a"%string; "a"%string] = Returned (rel, result)
    /\ (forall name, is_Some (result !! name) <-> name ∈ ["a"%string; "a"%string])
    /\ (length rel <= 10)%nat.
Proof.
  destruct (get_data_keys (Z.to_nat 10000) 2561 (3 : Z) ["a"%string]
              window_example_ops ["a"%string; "a"%string] NoDup_a)
    as (st & rel & result & Hrun & Hget & Hkeys & Hlen).
  { intros name Hname.
    apply elem_of_cons in Hname as [->|Hname]; [by left|exact Hname]. }
  rewrite window_example_run in Hrun. injection Hrun as <-.
  exists rel, result. split; [exact Hget|]. split; [exact Hkeys|exact Hlen].
Defined.

(** * Sorting *)

Section StableSort.
Context {A : Type} (leb : A -> A -> bool).

Lemma insert_sorted_Permutation (x : A) (l : list A) :
  insert_sorted leb x l ≡ₚ x :: l.
Proof.
  induction l as [|y l IH]; cbn [insert_sorted]; [done|].
  destruct (leb x y); [done|]. rewrite IH. apply Permutation_swap.
Qed.

Lemma stable_sort_Permutation (l : list A) : stable_sort leb l ≡ₚ l.
Proof.
  induction l as [|x l IH]; [done|].
  cbn [stable_sort foldr]. fold (stable_sort leb l).
  by rewrite insert_sorted_Permutation, IH.
Qed.

Lemma insert_sorted_Sorted (x : A) (l : list A) :
  (forall a b, leb a b = false -> leb b a = true) ->
  Sorted (fun a b => leb a b = true) l ->
  Sorted (fun a b => leb a b = true) (insert_sorted leb x l).
Proof.
  intros Htot. induction 1 as [|y l Hs IH Hhd]; cbn [insert_sorted].
  - by repeat constructor.
  - destruct (leb x y) eqn:E.
    + constructor; [by constructor|by constructor].
    + constructor; [done|].
      destruct l as [|z l]; cbn [insert_sorted].
      * constructor. by apply Htot.
      * destruct (leb x z); constructor; [by apply Htot|].
        by inversion Hhd.
Qed.

Lemma stable_sort_Sorted (l : list A) :
  (forall a b, leb a b = false -> leb b a = true) ->
  Sorted (fun a b => leb a b = true) (stable_sort leb l).
Proof.
  intros Htot. induction l as [|x l IH]; [constructor|].
  cbn [stable_sort foldr]. by apply insert_sorted_Sorted.
Qed.


(** Stability: the items that satisfy [P] keep their order, when an item is
    only moved behind items that [P] tells apart from it. *)
Lemma stable_sort_filter (P : A -> bool) (l : list A) :
  (forall a b, leb a b = false -> P a = true -> P b = false) ->
  List.filter P (stable_sort leb l) = List.filter P l.
Proof.
  intros Hsep.
  assert (Hins : forall x k, List.filter P (insert_sorted leb x k) = List.filter P (x :: k)).
  { intros x k. induction k as [|y k IH]; [done|]. cbn [insert_sorted].
    destruct (leb x y) eqn:E; [done|].
    cbn [List.filter] in *. rewrite IH.
    destruct (P x) eqn:Px; [|done]. by rewrite (Hsep x y E Px). }
  induction l as [|x l IH]; [done|].
  cbn [stable_sort foldr]. fold (stable_sort leb l).
  rewrite Hins. cbn [List.filter]. by rewrite IH.
Qed.
End StableSort.

Lemma Sorted_weaken {A} (R R' : A -> A -> Prop) (l : list A) :
  (forall a b, R a b -> R' a b) -> Sorted R l -> Sorted R' l.
Proof.
  intros Himp. induction 1 as [|x l Hs IH Hhd]; constructor; [done|].
  destruct Hhd; constructor. by apply Himp.
Qed.

(** * The XidML metadata *)

Lemma xidml_params_eq (els : list ParameterElement) (params : list (Z * option string)) :
  Forall (fun el => par_index el <> IndexNotInt) els ->
  xidml_params els params
  = Returned (params
              ++ imap (fun j el =>
                         (match par_index el with
                          | IndexInt i => i
                          | _ => Z.of_nat (length params + j)
                          end, par_name el)) els).
Proof.
  intros Hok. revert params.
  induction Hok as [|el els Hel _ IH]; intros params.
  - cbn. by rewrite app_nil_r.
  - cbn [xidml_params]. rewrite imap_cons.
    assert (Hidx : (match par_index el with
                    | IndexAbsent => Returned (Z.of_nat (length params))
                    | IndexInt i => Returned i
                    | IndexNotInt => Raised ValueError
                    end)
                   = Returned (match par_index el with
                               | IndexInt i => i
                               | _ => Z.of_nat (length params + 0)
                               end)).
    { rewrite Nat.add_0_r. by destruct (par_index el). }
    rewrite Hidx. cbn [obind]. rewrite IH, <- app_assoc. cbn [app].
    do 3 f_equal. apply imap_ext. intros j x _. cbn.
    rewrite length_app. cbn [length].
    by replace (length params + 1 + j)%nat with (length params + S j)%nat by lia.
Qed.

Lemma xidml_params_raises (els : list ParameterElement) (params : list (Z * option string)) :
  Exists (fun el => par_index el = IndexNotInt) els ->
  xidml_params els params = Raised ValueError.
Proof.
  intros Hbad. revert params.
  induction els as [|el els IH]; intros params; [by inversion Hbad|].
  cbn [xidml_params].
  destruct (par_index el) eqn:Hidx; cbn [obind]; try done;
    apply IH; inversion Hbad; subst; try done; congruence.
Qed.

Lemma load_xidml_eq (els : list ParameterElement) :
  Forall (fun el => par_index el <> IndexNotInt) els ->
  load_xidml els
  = Returned (map snd (stable_sort (fun p q => p.1 <=? q.1) (indexed_parameters els))).
Proof.
  intros Hok. unfold load_xidml. rewrite (xidml_params_eq els [] Hok). done.
Qed.

(** X11: [load_xidml] raises [ValueError] exactly when some [index]
    attribute is not an integer; otherwise it returns the names of the
    elements, each once, in some order. *)
Theorem load_xidml_returns_iff (els : list ParameterElement) :
  (Forall (fun el => par_index el <> IndexNotInt) els ->
     exists names, load_xidml els = Returned names
                   /\ names ≡ₚ map par_name els)
  /\ (Exists (fun el => par_index el = IndexNotInt) els ->
        load_xidml els = Raised ValueError).
Proof.
  split.
  - intros Hok. eexists. split; [by apply load_xidml_eq|].
    rewrite stable_sort_Permutation. unfold indexed_parameters.
    change (map snd ?l) with (snd <$> l). rewrite fmap_imap.
    change (map par_name els) with (par_name <$> els).
    rewrite <- imap_const. by rewrite (imap_ext _ (const par_name) els).
  - intros Hbad. unfold load_xidml. by rewrite xidml_params_raises.
Qed.

Lemma load_xidml_returns_iff_witness :
  (exists names,
     load_xidml [mkParameter (Some "b"%string) (IndexInt 1);
                 mkParameter (Some "a"%string) (IndexInt 0)] = Returned names
     /\ names ≡ₚ [Some "b"%string; Some "a"%string])
  /\ load_xidml [mkParameter (Some "b"%string) IndexNotInt] = Raised ValueError.
Proof.
  split.
  - apply (load_xidml_returns_iff [mkParameter (Some "b"%string) (IndexInt 1);
                                   mkParameter (Some "a"%string) (IndexInt 0)]).
    repeat constructor; discriminate.
  - apply (load_xidml_returns_iff [mkParameter (Some "b"%string) IndexNotInt]).
    by constructor.
Defined.

(** X12: the names [load_xidml] returns are ordered by index, where an
    element without index counts with its position in the document, and
    elements of equal index keep their document order. *)
Theorem load_xidml_sorted_stable (els : list ParameterElement) :
  Forall (fun el => par_index el <> IndexNotInt) els ->
  exists params,
    load_xidml els = Returned (map snd params)
    /\ params ≡ₚ indexed_parameters els
    /\ Sorted (fun p q => p.1 <= q.1) params
    /\ forall i, List.filter (fun p => p.1 =? i) params
                 = List.filter (fun p => p.1 =? i) (indexed_parameters els).
Proof.
  intros Hok. eexists. split; [by apply load_xidml_eq|].
  split; [apply stable_sort_Permutation|]. split.
  - eapply Sorted_weaken; [|apply stable_sort_Sorted].
    + intros p q Hpq. cbn in Hpq. lia.
    + intros p q Hpq. cbn in *. lia.
  - intros i. apply stable_sort_filter. intros p q Hpq Hp. cbn in *. lia.
Qed.

Lemma load_xidml_sorted_stable_witness :
  exists params,
    load_xidml [mkParameter (Some "c"%string) (IndexInt 1);
                mkParameter (Some "b"%string) (IndexInt 1);
                mkParameter (Some "a"%string) (IndexInt 0)] = Returned (map snd params)
    /\ Sorted (fun p q => p.1 <= q.1) params
    /\ List.filter (fun p => p.1 =? 1) params
       = [(1, Some "c"%string); (1, Some "b"%string)].
Proof.
  destruct (load_xidml_sorted_stable
              [mkParameter (Some "c"%string) (IndexInt 1);
               mkParameter (Some "b"%string) (IndexInt 1);
               mkParameter (Some "a"%string) (IndexInt 0)])
    as (params & Hload & _ & Hsorted & Hstable).
  { repeat constructor; discriminate. }
  exists params. split; [exact Hload|]. split; [exact Hsorted|].
  rewrite Hstable. reflexivity.
Defined.


(** An element without [index] counts with its position in the document. *)
Example load_xidml_default_index :
  load_xidml [mkParameter (Some "c"%string) (IndexInt 2);
              mkParameter (Some "b"%string) IndexAbsent;
              mkParameter (Some "a"%string) (IndexInt 0)]
  = Returned [Some "a"%string; Some "b"%string; Some "c"%string].
Proof. vm_compute. reflexivity. Qed.







(** Outside these names the file does not give the names back: a tab in a
    name is read as a space, and a control character makes the parser
    reject the file, on which [main] stops with a parser error. *)
Example read_back_name_with_tab :
  read_generated_parameters [name_with_tab]
  = Some [mkParameter (Some "a b"%string) (IndexInt 0)].
Proof. vm_compute. reflexivity. Qed.

Example read_back_name_with_control :
  read_generated_parameters ["a"%string; name_with_control] = None.
Proof. vm_compute. reflexivity. Qed.

(** * Command line checks, in full *)

(** X14: the receiver's [main], from the values of [--config] and [--vars]
    on.  An option counts as given when its value is not the empty string.
    [main] stops with a parser error when the configuration file is given
    and cannot be loaded, or when a name given with [--vars] is not a
    parameter name.  Otherwise it goes on to the sockets with the names of
    the file, or with the letters a to z when no file is given, and with
    the requested names, or with the first three parameter names when
    [--vars] is not given or empty. *)
Theorem receiver_main_spec (load : string -> option (list string))
    (split_strip : string -> list string) (config_arg vars_arg : option string) :
  (forall path,
     config_arg = Some path -> path <> EmptyString -> load path = None ->
     receiver_main load split_strip config_arg vars_arg = ParserError)
  /\ forall names,
       (exists path, config_arg = Some path /\ path <> EmptyString
                     /\ load path = Some names)
       \/ ((config_arg = None \/ config_arg = Some EmptyString)
           /\ names = default_param_names) ->
       ((vars_arg = None \/ vars_arg = Some EmptyString) ->
          receiver_main load split_strip config_arg vars_arg
          = OpensSocket names (take 3 names))
       /\ forall s, vars_arg = Some s -> s <> EmptyString ->
            ((forall v, v ∈ split_strip s -> v ∈ names) ->
               receiver_main load split_strip config_arg vars_arg
               = OpensSocket names (split_strip s))
            /\ ((exists v, v ∈ split_strip s /\ v ∉ names) ->
                  receiver_main load split_strip config_arg vars_arg = ParserError).
Proof.
  assert (Htruthy : forall s, s <> EmptyString -> truthy_arg (Some s) = Some s).
  { intros s Hs. cbn. by rewrite (proj2 (String.eqb_neq _ _) Hs). }
  assert (Hfalsy : forall arg, arg = None \/ arg = Some EmptyString ->
            truthy_arg arg = None).
  { by intros arg [->| ->]. }
  unfold receiver_main. split.
  - intros path -> Hpath Hload. rewrite Htruthy by done. cbn. by rewrite Hload.
  - intros names Hcfg.
    assert (Heq : forall vars,
              receiver_main_config (load <$> truthy_arg config_arg) vars
              = let selected := match vars with
                                | Some vs => vs
                                | None => take 3 names
                                end in
                if forallb (fun v => bool_decide (v ∈ names)) selected
                then OpensSocket names selected else ParserError).
    { intros vars. destruct Hcfg as [(path & -> & Hpath & Hload)|[Hno ->]].
      - rewrite Htruthy by done. cbn. by rewrite Hload.
      - by rewrite Hfalsy. }
    rewrite Heq. clear Heq Hcfg. split.
    + intros Hno. rewrite Hfalsy by done. cbn.
      replace (forallb _ (take 3 names)) with true; [done|].
      symmetry. apply forallb_forall. intros v Hv.
      apply bool_decide_eq_true_2. apply list_elem_of_In in Hv.
      by apply (subseteq_take 3 names).
    + intros s -> Hs. rewrite Htruthy by done. cbn. split.
      * intros Hall. replace (forallb _ (split_strip s)) with true; [done|].
        symmetry. apply forallb_forall. intros v Hv.
        apply bool_decide_eq_true_2, Hall. by apply list_elem_of_In.
      * intros (v & Hv & Hni).
        destruct (forallb _ (split_strip s)) eqn:Hall; [|done].
        rewrite forallb_forall in Hall. apply list_elem_of_In, Hall in Hv.
        by apply bool_decide_eq_true_1 in Hv.
Qed.

(** With the names x and y loaded from a file: [--vars y] selects y,
    [--vars z] is a parser error, and [--vars] with the empty string selects
    the first three names, as no [--vars] does. *)
Lemma receiver_main_spec_witness :
  let load := fun _ : string => Some ["x"%string; "y"%string] in
  let split_strip := fun s : string => [s] in
  receiver_main load split_strip (Some "cfg.xidml"%string) (Some "y"%string)
  = OpensSocket ["x"%string; "y"%string] ["y"%string]
  /\ receiver_main load split_strip (Some "cfg.xidml"%string) (Some "z"%string)
     = ParserError
  /\ receiver_main load split_strip (Some "cfg.xidml"%string) (Some EmptyString)
     = OpensSocket ["x"%string; "y"%string] ["x"%string; "y"%string].
Proof.
  intros load split_strip.
  assert (Hcfg : exists path, Some "cfg.xidml"%string = Some path
                              /\ path <> EmptyString
                              /\ load path = Some ["x"%string; "y"%string]).
  { by exists "cfg.xidml"%string. }
  split; [|split].
  - destruct (receiver_main_spec load split_strip (Some "cfg.xidml"%string)
                (Some "y"%string)) as [_ Hspec].
    destruct (Hspec ["x"%string; "y"%string]) as [_ Hvars]; [by left|].
    destruct (Hvars "y"%string eq_refl) as [Hok _]; [done|].
    apply Hok. intros v Hv. apply list_elem_of_singleton in Hv as ->.
    right. by left.
  - destruct (receiver_main_spec load split_strip (Some "cfg.xidml"%string)
                (Some "z"%string)) as [_ Hspec].
    destruct (Hspec ["x"%string; "y"%string]) as [_ Hvars]; [by left|].
    destruct (Hvars "z"%string eq_refl) as [_ Hbad]; [done|].
    apply Hbad. exists "z"%string. split; [by left|].
    intros Hin. apply elem_of_cons in Hin as [?|Hin]; [done|].
    apply list_elem_of_singleton in Hin. done.
  - destruct (receiver_main_spec load split_strip (Some "cfg.xidml"%string)
                (Some EmptyString)) as [_ Hspec].
    destruct (Hspec ["x"%string; "y"%string]) as [Hnone _]; [by left|].
    apply Hnone. by right.
Defined.

(** X15: the sender's [main] stops with a parser error exactly when every
    item of [--vars] is empty after stripping; otherwise its parameter names
    are the non-empty items, there is at least one, and none is empty. *)
Theorem sender_main_config_spec (vars : list string) :
  (Forall (fun v => v = EmptyString) vars -> sender_main_config vars = ParserError)
  /\ (Exists (fun v => v <> EmptyString) vars ->
        exists names,
          sender_main_config vars = OpensSocket names names
          /\ names <> []
          /\ forall v, v ∈ names <-> v ∈ vars /\ v <> EmptyString).
Proof.
  split; [apply sender_main_rejects_zero_parameters|].
  intros Hex. unfold sender_main_config.
  set (names := List.filter _ vars).
  assert (Hmem : forall v, v ∈ names <-> v ∈ vars /\ v <> EmptyString).
  { intros v. unfold names. rewrite !list_elem_of_In, filter_In.
    rewrite negb_true_iff, String.eqb_neq. done. }
  assert (Hne : names <> []).
  { apply Exists_exists in Hex as (v & Hv & Hnonempty).
    intros Hnil. assert (Hin : v ∈ names) by (by apply Hmem).
    rewrite Hnil in Hin. by apply elem_of_nil in Hin. }
  exists names. split; [|by split].
  destruct names as [|n names']; [done|]. done.
Qed.

Lemma sender_main_config_spec_witness :
  sender_main_config [EmptyString; EmptyString] = ParserError
  /\ exists names,
       sender_main_config ["a"%string; EmptyString; "b"%string] = OpensSocket names names
       /\ names <> [].
Proof.
  split.
  - apply (sender_main_config_spec [EmptyString; EmptyString]).
    by repeat constructor.
  - destruct (sender_main_config_spec ["a"%string; EmptyString; "b"%string])
      as [_ Hok].
    destruct Hok as (names & Hrun & Hne & _); [by left|].
    by exists names.
Defined.

(** * Choosing a stream *)

Lemma ident_leb_total (a b : Z * string) :
  ident_leb a b = false -> ident_leb b a = true.
Proof.
  unfold ident_leb. intros Hab.
  apply orb_false_iff in Hab as [Hlt Hrest]. apply Z.ltb_ge in Hlt.
  destruct (Z.eqb_spec a.1 b.1) as [Heq|Hne].
  - cbn in Hrest. rewrite Heq, Z.ltb_irrefl, Z.eqb_refl. cbn.
    destruct (String.leb_total a.2 b.2) as [Hl|Hl]; [congruence|done].
  - apply orb_true_iff. left. apply Z.ltb_lt. lia.
Qed.

Section ChooseStream.
Context {T : Type}.
Implicit Types (streams : gmap (Z * string) (StreamInfo T))
               (entries : list ((Z * string) * StreamInfo T)).

Lemma select_stream_elem entries (stdin : list user_input) (k : Z) :
  select_stream entries stdin = Some k ->
  exists e, e ∈ entries /\ e.1.1 = k.
Proof.
  induction stdin as [|[|idx|] stdin IH]; cbn [select_stream]; try done.
  destruct ((1 <=? idx) && (idx <=? Z.of_nat (length entries))); [|done].
  destruct (entries !! Z.to_nat (idx - 1)) as [e|] eqn:He; [|done].
  intros [= <-]. exists e. split; [|done]. by eapply list_elem_of_lookup_2.
Qed.

(** X16: the key that [choose_stream] returns is the key of a stream of the
    mapping it was given. *)
Theorem choose_stream_discovered streams (stdin : list user_input) (k : Z) :
  choose_stream streams stdin = Some k ->
  exists src info, streams !! (k, src) = Some info.
Proof.
  unfold choose_stream. destruct (size streams =? 0)%nat; [done|].
  intros Hsel. apply select_stream_elem in Hsel as ([[k' src] info] & He & <-).
  exists src, info. apply elem_of_map_to_list.
  unfold sorted_streams in He. by rewrite stable_sort_Permutation in He.
Qed.

(** An input the loop of [choose_stream] answers with a new prompt. *)
Lemma select_stream_skip entries (skipped rest : list user_input) :
  Forall (fun x => x = InputOther
                   \/ exists n, x = InputNumber n
                                /\ ~ (1 <= n <= Z.of_nat (length entries))) skipped ->
  select_stream entries (skipped ++ rest) = select_stream entries rest.
Proof.
  induction 1 as [|x skipped Hx _ IH]; [done|].
  destruct Hx as [->|(n & -> & Hn)]; cbn [app select_stream]; [done|].
  destruct (Z.leb_spec 1 n), (Z.leb_spec n (Z.of_nat (length entries)));
    cbn [andb]; try done. lia.
Qed.

(** X17: the streams are offered in ascending order of (key, source
    address), each once; inputs that are no number of an offered stream are
    skipped; the first number [idx] between 1 and the number of streams
    returns the key of the [idx]-th stream in that order, and [q] or the
    end of the input returns no key. *)
Theorem choose_stream_selection streams (skipped rest : list user_input) (idx : Z) :
  Forall (fun x => x = InputOther
                   \/ exists n, x = InputNumber n
                                /\ ~ (1 <= n <= Z.of_nat (size streams))) skipped ->
  1 <= idx <= Z.of_nat (size streams) ->
  sorted_streams streams ≡ₚ map_to_list streams
  /\ Sorted (fun a b => ident_leb a.1 b.1 = true) (sorted_streams streams)
  /\ (exists e, sorted_streams streams !! Z.to_nat (idx - 1) = Some e
                /\ choose_stream streams (skipped ++ InputNumber idx :: rest)
                   = Some e.1.1)
  /\ choose_stream streams (skipped ++ InputQuit :: rest) = None
  /\ choose_stream streams skipped = None.
Proof.
  intros Hskip Hidx.
  assert (Hperm : sorted_streams streams ≡ₚ map_to_list streams)
    by apply stable_sort_Permutation.
  assert (Hlen : length (sorted_streams streams) = size streams).
  { by rewrite Hperm, length_map_to_list. }
  rewrite <- Hlen in Hskip.
  split; [done|]. split.
  { apply stable_sort_Sorted. intros a b. apply ident_leb_total. }
  unfold choose_stream.
  destruct (Nat.eqb_spec (size streams) 0) as [H0|H0]; [lia|].
  rewrite !select_stream_skip by done.
  rewrite <- (app_nil_r skipped), select_stream_skip by done.
  cbn [select_stream]. split; [|done].
  destruct (lookup_lt_is_Some_2 (sorted_streams streams) (Z.to_nat (idx - 1)))
    as [e He]; [lia|].
  exists e. split; [done|].
  rewrite Hlen, (proj2 (Z.leb_le 1 idx)), (proj2 (Z.leb_le idx _)) by lia.
  cbn [andb]. by rewrite He.
Qed.
End ChooseStream.

Lemma choose_stream_discovered_witness :
  exists src info, two_streams !! (2818, src) = Some info.
Proof.
  apply (choose_stream_discovered two_streams [InputOther; InputNumber 2]).
  vm_compute. reflexivity.
Defined.

Lemma choose_stream_selection_witness :
  choose_stream two_streams [InputOther; InputNumber 7; InputNumber 1; InputNumber 2]
  = Some 2561
  /\ choose_stream two_streams [InputOther; InputNumber 7; InputQuit; InputNumber 2]
     = None.
Proof.
  destruct (choose_stream_selection two_streams [InputOther; InputNumber 7]
              [InputNumber 2] 1) as (_ & _ & (e & He & Hsel) & Hquit & _).
  - constructor; [by left|]. constructor; [|constructor].
    right. exists 7. split; [done|]. vm_compute. intros [_ Hle]. by apply Hle.
  - vm_compute. split; discriminate.
  - split; [|exact Hquit].
    cbn [app] in Hsel. rewrite Hsel. vm_compute in He. by injection He as <-.
Defined.

(** * The records of a scan *)

Lemma last_elem_of {A} (x d : A) (l : list A) : List.last (x :: l) d ∈ x :: l.
Proof.
  revert x. induction l as [|y l IH]; intros x; [by left|].
  change (List.last (x :: y :: l) d) with (List.last (y :: l) d). right. apply IH.
Qed.

Lemma arrivals_elem {T} (N : Z) (ident : Z * string) (turns : list (turn T)) (x : T) :
  x ∈ arrivals N ident turns ->
  exists t, t ∈ turns /\ decodes_to N ident (turn_recv t) = true /\ turn_now t = x.
Proof.
  unfold arrivals. rewrite list_elem_of_In, in_map_iff.
  intros (t & <- & Ht). apply filter_In in Ht as [Ht Hd].
  exists t. by rewrite list_elem_of_In.
Qed.

Lemma length_arrivals {T} (N : Z) (ident : Z * string) (turns : list (turn T)) :
  (length (arrivals N ident turns) <= length turns)%nat.
Proof.
  unfold arrivals. rewrite length_map. induction turns as [|t turns IH]; [done|].
  cbn [List.filter]. destruct (decodes_to _ _ _); cbn [length]; lia.
Qed.

Section DiscoveryRecords.
Context {T : Type} `{Clock T}.

(** X18: in the mapping of a scan of [n] turns every record has a count
    between 1 and [n], its key is a 16-bit value, and its [first] and
    [last] are the arrival times of datagrams that came from the record's
    source address in one of these turns and decoded to its key. *)
Theorem discover_streams_records (start : T) (env : nat -> turn T)
    (duration : T) (N : Z) (n : nat) :
  0 <= N ->
  (forall j, (j < n)%nat ->
     time_ltb (turn_check (env j)) (time_add start duration) = true) ->
  time_ltb (turn_check (env n)) (time_add start duration) = false ->
  exists streams,
    discover_streams (S n) start env duration N = Some (Returned streams)
    /\ forall ident r, streams !! ident = Some r ->
         1 <= info_count r <= Z.of_nat n
         /\ 0 <= ident.1 < 65536
         /\ (exists j data port,
               (j < n)%nat /\ turn_recv (env j) = RecvData data ident.2 port
               /\ info_first r = turn_now (env j))
         /\ (exists j data port,
               (j < n)%nat /\ turn_recv (env j) = RecvData data ident.2 port
               /\ info_last r = turn_now (env j)).
Proof.
  intros HN Hlt Hge. unfold discover_streams.
  destruct (discover_loop_exact N env (time_add start duration) n HN 0 ∅ (S n))
    as (streams & Hloop & Hturns); [done|done|lia|].
  exists streams. split; [done|].
  destruct (discover_turns_spec N (∅ : gmap (Z * string) (StreamInfo T)) []
              (map env (seq 0 n)) HN) as (s' & Hrun & Hrep).
  { intros ident. by rewrite lookup_empty. }
  rewrite Hturns in Hrun. injection Hrun as <-. cbn [app] in Hrep.
  intros ident r Hr. rewrite Hrep in Hr.
  pose proof (length_arrivals N ident (map env (seq 0 n))) as Hlen.
  rewrite length_map, length_seq in Hlen.
  assert (Hfrom : forall x, x ∈ arrivals N ident (map env (seq 0 n)) ->
            0 <= ident.1 < 65536
            /\ exists j data port,
                 (j < n)%nat /\ turn_recv (env j) = RecvData data ident.2 port
                 /\ x = turn_now (env j)).
  { intros x Hx. apply arrivals_elem in Hx as (t & Ht & Hd & <-).
    apply list_elem_of_In, in_map_iff in Ht as (j & <- & Hj).
    apply in_seq in Hj. unfold decodes_to in Hd.
    destruct (turn_recv (env j)) as [|data ip port] eqn:Hrecv; [done|].
    destruct (parse_iena_packet data N) as [|[p|]] eqn:Hp; try done.
    apply bool_decide_eq_true_1 in Hd. subst ident. cbn [fst snd].
    split; [by eapply parse_key_range|].
    exists j, data, port. split; [lia|]. by split. }
  destruct (arrivals N ident (map env (seq 0 n))) as [|t0 times] eqn:Harr; [done|].
  cbn [stream_record] in Hr. injection Hr as <-. cbn [info_count info_first info_last].
  destruct (Hfrom t0) as [Hkey Hfirst]; [by left|].
  destruct (Hfrom (List.last (t0 :: times) t0)) as [_ Hlast]; [apply last_elem_of|].
  split; [cbn [length] in *; lia|]. by split.
Qed.
End DiscoveryRecords.

Lemma discover_streams_records_witness :
  exists streams,
    discover_streams 11 0 example_env 10 1 = Some (Returned streams)
    /\ forall ident r, streams !! ident = Some r ->
         1 <= info_count r <= 10 /\ 0 <= ident.1 < 65536.
Proof.
  destruct (discover_streams_records 0 example_env 10 1 10)
    as (streams & Hrun & Hrec).
  - lia.
  - exact example_env_before_deadline.
  - reflexivity.
  - exists streams. split; [exact Hrun|].
    intros ident r Hr. destruct (Hrec ident r Hr) as (Hc & Hk & _).
    split; [exact Hc|exact Hk].
Defined.

(** * Discovery and the receiver together *)

Section SameKey.
Context {T : Type}.
Implicit Types (st : IenaMulticastReceiver T) (now : T).

(** X19: the receiver filters by key alone.  In every state a receiver
    built from any names reaches: a datagram that discovery, with the same
    parameter count, counts for the receiver's key under some source address
    is ingested (the packet count grows by one, the reading of the clock is
    put at the end of the timestamps, and the values of every configured
    name at the end of its buffer, each buffer keeping its last [maxlen]
    entries); a datagram that discovery counts for the receiver's key under
    no source address leaves the receiver as it was.  So streams of one key
    from several sources end up in the same buffers. *)
Theorem receiver_ingests_any_source (maxlen : nat) (key : Z) (win : T)
    (names : list string) (ops : list (receiver_op T)) (r : recv_result) now :
  exists st,
    receiver_run (receiver_init_with maxlen key win names) ops = Returned st
    /\ ((exists ip, decodes_to (Z.of_nat (length names)) (key, ip) r = true) ->
          exists st' data ip port p,
            r = RecvData data ip port
            /\ parse_iena_packet data (Z.of_nat (length names)) = Returned (Some p)
            /\ listen_step st r now = Returned st'
            /\ packet_count st' = packet_count st + 1
            /\ d_items (timestamps st')
               = lastn maxlen (d_items (timestamps st) ++ [now])
            /\ forall name, name ∈ names ->
                 exists d d',
                   series st !! name = Some d /\ series st' !! name = Some d'
                   /\ d_items d'
                      = lastn maxlen
                          (d_items d ++ values_of_name name names (pkt_values p)))
    /\ ((forall ip, decodes_to (Z.of_nat (length names)) (key, ip) r = false) ->
          listen_step st r now = Returned st).
Proof.
  destruct (receiver_run_ok maxlen names _ ops (receiver_ok_init maxlen key win names))
    as (st & Hrun & Hok).
  destruct (receiver_run_fixed _ _ _ Hrun) as [Hkey _].
  cbn [receiver_init_with key_filter] in Hkey.
  pose proof Hok as (Hnames & Hnum & _).
  exists st. split; [done|]. split.
  - intros (ip & Hd). destruct r as [|data src port]; [done|]. cbn [decodes_to] in Hd.
    destruct (parse_iena_packet data (Z.of_nat (length names))) as [|[p|]] eqn:Hp;
      try done.
    apply bool_decide_eq_true_1 in Hd. injection Hd as Hk _.
    destruct (parse_iena_packet_cases data (Z.of_nat (length names)))
      as [Hn|(p' & Hp' & Hl)]; [lia|congruence|].
    assert (p' = p) as -> by congruence.
    assert (Hvals : length (pkt_values p) = length names) by lia.
    destruct (append_sample_ok maxlen names st now _ Hok Hvals)
      as (st' & Heq & _ & Hcount & Hts & Hser).
    exists st', data, src, port, p. split; [done|]. split; [done|].
    split; [|done].
    rewrite (listen_step_matched _ _ _ _ _ p); [done| |congruence].
    by rewrite Hnum.
  - intros Hno. apply listen_step_dropped.
    destruct r as [|data src port]; [done|]. cbn [dropped]. rewrite Hnum.
    destruct (parse_iena_packet_cases data (Z.of_nat (length names)))
      as [Hn|(p & Hp & _)]; [lia|by left|].
    right. exists p. split; [done|]. intros Hk.
    specialize (Hno src). cbn [decodes_to] in Hno. rewrite Hp in Hno.
    apply bool_decide_eq_false_1 in Hno. apply Hno. congruence.
Qed.
End SameKey.

(** A datagram of the receiver's key from a source that discovery has not
    seen is ingested: its arrival time and its value are the one entry of
    the timestamps buffer and of the parameter's buffer.  A datagram of
    another key from a known source is not. *)
Lemma receiver_ingests_any_source_witness :
  let st := receiver_init (T := Z) 2561 30 ["a"%string] in
  (exists st', listen_step st (RecvData sample_datagram "10.0.0.9" 5001) 4 = Returned st'
               /\ packet_count st' = 1
               /\ d_items (timestamps st') = [4]
               /\ exists d', series st' !! "a"%string = Some d'
                             /\ d_items d' = [1065353216])
  /\ listen_step st (RecvData other_datagram "10.0.0.1" 5001) 4 = Returned st.
Proof.
  intros st. split.
  - destruct (receiver_ingests_any_source (Z.to_nat 10000) 2561 (30 : Z) ["a"%string] []
                (RecvData sample_datagram "10.0.0.9" 5001) 4)
      as (st0 & Hrun & Hin & _).
    cbn [receiver_run] in Hrun. injection Hrun as <-.
    destruct Hin as (st' & data & ip & port & p & Hr & Hp & Hstep & Hcount & Hts & Hser).
    + exists "10.0.0.9"%string. vm_compute. reflexivity.
    + injection Hr as <- <- <-.
      exists st'. split; [exact Hstep|]. split; [rewrite Hcount; reflexivity|].
      split; [rewrite Hts; reflexivity|].
      destruct (Hser "a"%string) as (d & d' & Hd & Hd' & Hitems); [by left|].
      exists d'. split; [exact Hd'|]. rewrite Hitems.
      vm_compute in Hd. injection Hd as <-.
      vm_compute in Hp. injection Hp as <-. reflexivity.
  - destruct (receiver_ingests_any_source (Z.to_nat 10000) 2561 (30 : Z) ["a"%string] []
                (RecvData other_datagram "10.0.0.1" 5001) 4)
      as (st0 & Hrun & _ & Hout).
    cbn [receiver_run] in Hrun. injection Hrun as <-.
    apply Hout. intros ip. cbn [decodes_to].
    replace (parse_iena_packet other_datagram (Z.of_nat (length ["a"%string])))
      with (Returned (Some (mkPacket 2818 11 0 0 7 1 [1065353216])) : outcome (option IenaPacket))
      by (vm_compute; reflexivity).
    apply bool_decide_eq_false_2. intros [= Hk].
Defined.

(** * The newest sample in a snapshot *)

Lemma mask_select_snoc {A} (mask : list bool) (l : list A) (b : bool) (x : A) :
  length mask = length l ->
  mask_select (mask ++ [b]) (l ++ [x])
  = mask_select mask l ++ (if b then [x] else []).
Proof.
  revert l. induction mask as [|m mask IH]; intros [|y l] Hlen; simpl in Hlen;
    try lia; cbn [app mask_select].
  - destruct b; reflexivity.
  - rewrite IH by lia. destruct m; reflexivity.
Qed.

Section NewestSample.
Context {T : Type} `{Clock T}.

(** The newest sample, on a state within the invariant. *)
Lemma snapshot_includes_latest_wf (st : IenaMulticastReceiver T)
    (var_names : list string) (latest : T) :
  receiver_wf st ->
  (forall name, name ∈ var_names -> name ∈ param_names st) ->
  last (d_items (timestamps st)) = Some latest ->
  time_geb latest (time_sub latest (window st)) = true ->
  exists rel result,
    get_data st var_names = Returned (rel, result)
    /\ last rel = Some (time_sub latest latest)
    /\ forall name, name ∈ var_names ->
         exists d vals, series st !! name = Some d
                        /\ result !! name = Some vals
                        /\ is_Some (last vals)
                        /\ last vals = last (d_items d).
Proof.
  intros Hwf Hcfg Hlast Hin.
  destruct (get_data_nonempty st var_names latest Hwf Hcfg Hlast)
    as (result & Hget & Hres).
  apply last_Some in Hlast as [ts' Hts].
  eexists _, result. split; [exact Hget|]. split.
  - rewrite Hts, map_app. cbn [map]. rewrite Hin.
    rewrite mask_select_snoc by (by rewrite length_map).
    rewrite map_app. cbn [map]. apply last_snoc.
  - intros name Hname. destruct (Hres name Hname) as (d & Hd & Hl & Hr).
    exists d. eexists. split; [done|]. split; [exact Hr|].
    assert (Hsome : is_Some (last (d_items d))).
    { apply last_is_Some. intros Hnil. rewrite Hnil, Hts, length_app in Hl.
      simpl in Hl. lia. }
    destruct Hsome as [x0 Hx0]. apply last_Some in Hx0 as [l0 Hl0].
    rewrite Hl0, Hts, !length_app in Hl. cbn [length] in Hl.
    rewrite Hl0, Hts, map_app. cbn [map]. rewrite Hin.
    rewrite mask_select_snoc by (rewrite length_map; lia).
    rewrite !last_snoc. by split; [eexists|].
Qed.

(** X20: on a receiver built from unique parameter names, after any
    operations: when the last stored timestamp passes the window test
    against itself (as it does for a window that is not negative), a
    snapshot of configured names is not empty: its last relative timestamp
    is that of the newest sample, and the values of every requested name
    end with the newest value of that name. *)
Theorem get_data_includes_latest (maxlen : nat) (key : Z) (win : T)
    (names : list string) (ops : list (receiver_op T)) (var_names : list string) :
  NoDup names ->
  (forall name, name ∈ var_names -> name ∈ names) ->
  exists st,
    receiver_run (receiver_init_with maxlen key win names) ops = Returned st
    /\ forall latest,
         last (d_items (timestamps st)) = Some latest ->
         time_geb latest (time_sub latest win) = true ->
         exists rel result,
           get_data st var_names = Returned (rel, result)
           /\ last rel = Some (time_sub latest latest)
           /\ forall name, name ∈ var_names ->
                exists d vals, series st !! name = Some d
                               /\ result !! name = Some vals
                               /\ is_Some (last vals)
                               /\ last vals = last (d_items d).
Proof.
  intros Hnd Hcfg.
  destruct (receiver_run_init maxlen key win names ops Hnd)
    as (st & Hrun & Hwf & Hnames & _ & Hwin).
  exists st. split; [done|]. intros latest Hlast Hin.
  rewrite <- Hnames in Hcfg. rewrite <- Hwin in Hin.
  exact (snapshot_includes_latest_wf st var_names latest Hwf Hcfg Hlast Hin).
Qed.
End NewestSample.

Lemma get_data_includes_latest_witness :
  exists rel result,
    get_data window_example_state ["a"%string] = Returned (rel, result)
    /\ last rel = Some 0
    /\ exists vals, result !! "a"%string = Some vals /\ last vals = Some 1065353225.
Proof.
  destruct (get_data_includes_latest (Z.to_nat 10000) 2561 (3 : Z) ["a"%string]
              window_example_ops ["a"%string] NoDup_a)
    as (st & Hrun & Hlatest).
  { intros name Hname. exact Hname. }
  rewrite window_example_run in Hrun. injection Hrun as <-.
  destruct (Hlatest 9) as (rel & result & Hget & Hrel & Hvals).
  - reflexivity.
  - reflexivity.
  - exists rel, result. split; [exact Hget|]. split; [exact Hrel|].
    destruct (Hvals "a"%string) as (d & vals & Hd & Hr & _ & Hl); [by left|].
    exists vals. split; [exact Hr|]. rewrite Hl.
    unfold window_example_state in Hd. cbn [series] in Hd.
    rewrite lookup_singleton_eq in Hd. by injection Hd as <-.
Defined.
